(** * Krishimitra backend: the request handlers of [backend/main.py]

    A shallow embedding of the three Flask handlers [chat],
    [transcribe_audio] and [detect_pest], together with the helpers they
    call ([log_event], [log_chat_message], [log_pest_upload]).

    Modelling conventions.
    - A Python [str] is a list of Unicode code points, [bytes] a list of
      bytes.
    - A handler is a computation in a state-and-exception monad over a
      [World]: the files on disk, the text logs, and the chronological
      trace of observable effects (file writes and removals, log appends,
      prints and the calls made to the hosted providers).
    - The collaborators that live outside the repository (the system
      clock, the temporary-file namer, PIL's image decoder and the three
      hosted providers) are the fields of an [Env]; each may raise.
    - [json.loads] is modelled by a decoder written after CPython's
      [json.decoder] and [json.scanner] for [str] input.  A float is
      identified by the number text that denotes it; the interpreter's
      resource limits (recursion depth, integer digit limit) are not part
      of the model.
    - The handlers are read twice.  First with the local operations
      ([open], [write], [print]) on the flat path-indexed file store
      succeeding and [except Exception] catching whatever is raised: this
      is the reading in which the properties of what a request computes
      are stated.  Then, in [Io], with those operations able to fail and
      [except Exception] letting through what derives from [BaseException]
      only: this is the reading in which the properties of what a request
      does on failure are stated. *)

From Stdlib Require Import Strings.String Strings.Ascii Strings.Byte NArith ZArith List Bool Lia.
From stdpp Require Import base option list gmap.

Import ListNotations.
Set Warnings "-register-all".
Local Open Scope N_scope.
Local Open Scope list_scope.

(** ** Python strings *)

Definition pystr := list N.
Definition bytes := list byte.

(** The code points of an ASCII literal. *)
Fixpoint u (s : string) : pystr :=
  match s with
  | EmptyString => []
  | String a r => N_of_ascii a :: u r
  end.

(** [str.isspace] on one code point, as [str.strip] uses it: the ASCII
    whitespace table and the Unicode characters of bidirectional type WS,
    B or S, or of category Zs. *)
Definition py_isspace (c : N) : bool :=
  ((9 <=? c) && (c <=? 13)) || ((28 <=? c) && (c <=? 32))
  || (c =? 133) || (c =? 160) || (c =? 5760)
  || ((8192 <=? c) && (c <=? 8202))
  || (c =? 8232) || (c =? 8233) || (c =? 8239) || (c =? 8287) || (c =? 12288).

Fixpoint lstrip (s : pystr) : pystr :=
  match s with
  | c :: r => if py_isspace c then lstrip r else s
  | [] => []
  end.

Definition rstrip (s : pystr) : pystr := rev (lstrip (rev s)).

(** [s.strip()] *)
Definition strip (s : pystr) : pystr := rstrip (lstrip s).

(** [s.replace(a, b)] for one-character [a] and [b]. *)
Definition replace_char (a b : N) (s : pystr) : pystr :=
  map (fun c => if c =? a then b else c) s.

(** [s.startswith(p)] *)
Fixpoint startswith (p s : pystr) : bool :=
  match p, s with
  | [], _ => true
  | a :: p', b :: s' => (a =? b) && startswith p' s'
  | _ :: _, [] => false
  end.

Fixpoint endswith_char (c : N) (s : pystr) : bool :=
  match s with
  | [] => false
  | [a] => a =? c
  | _ :: r => endswith_char c r
  end.

(** [posixpath.join(a, b)] *)
Definition os_path_join (a b : pystr) : pystr :=
  if startswith (u "/") b then b
  else if (match a with [] => true | _ => false end) || endswith_char 47 a
       then a ++ b
       else a ++ u "/" ++ b.

(** Decimal digits of a number, zero-padded on the left to [width]
    characters, as [strftime] prints a field. *)
Fixpoint digits_fuel (fuel : nat) (n : N) (acc : pystr) : pystr :=
  match fuel with
  | O => acc
  | S f =>
      let acc' := (48 + n mod 10) :: acc in
      if n / 10 =? 0 then acc' else digits_fuel f (n / 10) acc'
  end.

Definition digits (n : N) : pystr := digits_fuel (S (N.to_nat n)) n [].

Definition zpad (width : nat) (n : N) : pystr :=
  let d := digits n in
  repeat 48 (width - length d) ++ d.

(** ** Python values, as [jsonify] receives them and [json.loads] returns them *)

Inductive pyval :=
| PNone
| PBool (b : bool)
| PInt (z : Z)
| PFloat (lexeme : pystr)
| PStr (s : pystr)
| PList (l : list pyval)
| PDict (d : list (pystr * pyval)).

Fixpoint pystr_eqb (a b : pystr) : bool :=
  match a, b with
  | [], [] => true
  | x :: a', y :: b' => (x =? y) && pystr_eqb a' b'
  | _, _ => false
  end.

(** [d.get(k)] on a dict kept in insertion order with unique keys. *)
Fixpoint dict_get (d : list (pystr * pyval)) (k : pystr) : option pyval :=
  match d with
  | [] => None
  | (k', v) :: r => if pystr_eqb k' k then Some v else dict_get r k
  end.

(** [d[k] = v]: an existing key keeps its position. *)
Fixpoint dict_set (d : list (pystr * pyval)) (k : pystr) (v : pyval)
  : list (pystr * pyval) :=
  match d with
  | [] => [(k, v)]
  | (k', v') :: r =>
      if pystr_eqb k' k then (k', v) :: r else (k', v') :: dict_set r k v
  end.

(** ** Exceptions *)

Inductive ExcClass :=
| UnidentifiedImageError
| JSONDecodeError
| ValueError
| IndexError
| AttributeError
| FileNotFoundError
| RecursionError
| OtherException (name : pystr).

(** An exception object; [exc_msg] is what [str(e)] gives. *)
Record Exc := mkExc { exc_class : ExcClass; exc_msg : pystr }.

Inductive Result (A : Type) :=
| Ok (a : A)
| Raise (e : Exc).
Arguments Ok {A} a.
Arguments Raise {A} e.

(** ** [json.loads] on a [str]

    After [json/decoder.py] and [json/scanner.py].  Positions are kept as
    the text that remains to be read; an error keeps its message without
    the position suffix. *)

Inductive Scan (A : Type) :=
| Scanned (a : A) (rest : pystr)
| ScanError (msg : pystr)
| ScanDepth.
Arguments Scanned {A} a rest.
Arguments ScanError {A} msg.
Arguments ScanDepth {A}.

(** [WHITESPACE]: space, tab, line feed and carriage return. *)
Definition is_json_ws (c : N) : bool :=
  (c =? 32) || (c =? 9) || (c =? 10) || (c =? 13).

Fixpoint skip_ws (s : pystr) : pystr :=
  match s with
  | c :: r => if is_json_ws c then skip_ws r else s
  | [] => []
  end.

Definition is_digit (c : N) : bool := (48 <=? c) && (c <=? 57).

Definition hex_value (c : N) : option N :=
  if is_digit c then Some (c - 48)
  else if (97 <=? c) && (c <=? 102) then Some (c - 87)
  else if (65 <=? c) && (c <=? 70) then Some (c - 55)
  else None.

(** The four hex digits of a [\uXXXX] escape. *)
Definition hex4 (a b c d : N) : option N :=
  match hex_value a, hex_value b, hex_value c, hex_value d with
  | Some x, Some y, Some z, Some w => Some (((x * 16 + y) * 16 + z) * 16 + w)
  | _, _, _, _ => None
  end.

(** [BACKSLASH]: the one-character escapes. *)
Definition backslash (c : N) : option N :=
  if c =? 34 then Some 34
  else if c =? 92 then Some 92
  else if c =? 47 then Some 47
  else if c =? 98 then Some 8
  else if c =? 102 then Some 12
  else if c =? 110 then Some 10
  else if c =? 114 then Some 13
  else if c =? 116 then Some 9
  else None.

Definition is_high_surrogate (c : N) : bool := (55296 <=? c) && (c <=? 56319).
Definition is_low_surrogate (c : N) : bool := (56320 <=? c) && (c <=? 57343).
Definition join_surrogates (hi lo : N) : N :=
  65536 + ((hi - 55296) * 1024 + (lo - 56320)).

Definition err_unterminated : pystr := u "Unterminated string starting at".
Definition err_escape : pystr := u "Invalid \escape".
Definition err_uXXXX : pystr := u "Invalid \uXXXX escape".
Definition err_control : pystr := u "Invalid control character at".
Definition err_value : pystr := u "Expecting value".
Definition err_colon : pystr := u "Expecting ':' delimiter".
Definition err_comma : pystr := u "Expecting ',' delimiter".
Definition err_name : pystr :=
  u "Expecting property name enclosed in double quotes".
Definition err_extra : pystr := u "Extra data".
Definition err_bom : pystr := u "Unexpected UTF-8 BOM (decode using utf-8-sig)".

(** [scanstring(s, end, strict=True)], entered after the opening quote;
    [acc] holds the decoded characters, newest first. *)
Fixpoint scanstring (s : pystr) (acc : pystr) : Scan pystr :=
  match s with
  | [] => ScanError err_unterminated
  | c :: rest =>
      if c =? 34 then Scanned (rev acc) rest
      else if c =? 92 then
        match rest with
        | [] => ScanError err_unterminated
        | esc :: rest1 =>
            if esc =? 117 then
              match rest1 with
              | a :: b :: c' :: d :: rest2 =>
                  match hex4 a b c' d with
                  | None => ScanError err_uXXXX
                  | Some uni =>
                      if is_high_surrogate uni then
                        match rest2 with
                        | bs :: uu :: rest3 =>
                            if (bs =? 92) && (uu =? 117) then
                              match rest3 with
                              | a2 :: b2 :: c2 :: d2 :: rest4 =>
                                  match hex4 a2 b2 c2 d2 with
                                  | None => ScanError err_uXXXX
                                  | Some uni2 =>
                                      if is_low_surrogate uni2
                                      then scanstring rest4
                                             (join_surrogates uni uni2 :: acc)
                                      else scanstring rest2 (uni :: acc)
                                  end
                              | _ => ScanError err_uXXXX
                              end
                            else scanstring rest2 (uni :: acc)
                        | _ => scanstring rest2 (uni :: acc)
                        end
                      else scanstring rest2 (uni :: acc)
                  end
              | _ => ScanError err_uXXXX
              end
            else
              match backslash esc with
              | Some ch => scanstring rest1 (ch :: acc)
              | None => ScanError err_escape
              end
        end
      else if c <=? 31 then ScanError err_control
      else scanstring rest (c :: acc)
  end.

Fixpoint take_digits (s : pystr) : pystr * pystr :=
  match s with
  | c :: r =>
      if is_digit c then let '(ds, r') := take_digits r in (c :: ds, r')
      else ([], s)
  | [] => ([], [])
  end.

(** [int(text)] for a run of decimal digits. *)
Definition int_of_digits (ds : pystr) : Z :=
  fold_left (fun acc c => (acc * 10 + Z.of_N (c - 48))%Z) ds 0%Z.

(** The integer part of [NUMBER_RE]: an optional minus sign, then a
    single zero or a non-zero digit followed by digits. *)
Definition match_integer (s : pystr) : option (pystr * pystr) :=
  let '(sign, s1) :=
    match s with
    | c :: r => if c =? 45 then ([45], r) else ([], s)
    | [] => ([], s)
    end in
  match s1 with
  | c :: r =>
      if c =? 48 then Some (sign ++ [48], r)
      else if is_digit c then
        let '(ds, r') := take_digits r in Some (sign ++ c :: ds, r')
      else None
  | [] => None
  end.

(** The optional fraction of [NUMBER_RE]: a dot and at least one digit. *)
Definition match_frac (s : pystr) : pystr * pystr :=
  match s with
  | dot :: r =>
      if dot =? 46 then
        match take_digits r with
        | ([], _) => ([], s)
        | (ds, r') => (dot :: ds, r')
        end
      else ([], s)
  | [] => ([], s)
  end.

(** The optional exponent of [NUMBER_RE]: e or E, an optional sign and at
    least one digit. *)
Definition match_exp (s : pystr) : pystr * pystr :=
  match s with
  | e :: r =>
      if (e =? 101) || (e =? 69) then
        let '(sign, r1) :=
          match r with
          | c :: r0 => if (c =? 45) || (c =? 43) then ([c], r0) else ([], r)
          | [] => ([], r)
          end in
        match take_digits r1 with
        | ([], _) => ([], s)
        | (ds, r') => (e :: sign ++ ds, r')
        end
      else ([], s)
  | [] => ([], s)
  end.

(** [match_number] and the conversion of its groups: an [int] when there
    is neither fraction nor exponent, a [float] otherwise. *)
Definition match_number (s : pystr) : option (pyval * pystr) :=
  match match_integer s with
  | None => None
  | Some (integer, r) =>
      let '(frac, r1) := match_frac r in
      let '(exp, r2) := match_exp r1 in
      match frac, exp with
      | [], [] =>
          Some (PInt (match integer with
                      | c :: ds =>
                          if c =? 45 then (- int_of_digits ds)%Z
                          else int_of_digits integer
                      | [] => 0%Z
                      end), r2)
      | _, _ => Some (PFloat (integer ++ frac ++ exp), r2)
      end
  end.

Definition scan_string_value (s : pystr) : Scan pyval :=
  match scanstring s [] with
  | Scanned v r => Scanned (PStr v) r
  | ScanError m => ScanError m
  | ScanDepth => ScanDepth
  end.

Definition scan_constant (s : pystr) : Scan pyval :=
  if startswith (u "null") s then Scanned PNone (drop 4 s)
  else if startswith (u "true") s then Scanned (PBool true) (drop 4 s)
  else if startswith (u "false") s then Scanned (PBool false) (drop 5 s)
  else
    match match_number s with
    | Some (v, r) => Scanned v r
    | None =>
        if startswith (u "NaN") s then Scanned (PFloat (u "NaN")) (drop 3 s)
        else if startswith (u "Infinity") s
             then Scanned (PFloat (u "Infinity")) (drop 8 s)
        else if startswith (u "-Infinity") s
             then Scanned (PFloat (u "-Infinity")) (drop 9 s)
        else ScanError err_value
    end.

(** [scan_once], [JSONArray] and [JSONObject].  [fuel] bounds the number
    of nested calls. *)
Fixpoint scan_once (fuel : nat) (s : pystr) : Scan pyval :=
  match fuel with
  | O => ScanDepth
  | S f =>
      match s with
      | [] => ScanError err_value
      | c :: rest =>
          if c =? 34 then scan_string_value rest
          else if c =? 123 then
            match skip_ws rest with
            | c1 :: r1 =>
                if c1 =? 125 then Scanned (PDict []) r1
                else if c1 =? 34 then object_items f [] r1
                else ScanError err_name
            | [] => ScanError err_name
            end
          else if c =? 91 then
            match skip_ws rest with
            | c1 :: r1 =>
                if c1 =? 93 then Scanned (PList []) r1
                else array_items f [] (c1 :: r1)
            | [] => array_items f [] []
            end
          else scan_constant s
      end
  end
with array_items (fuel : nat) (values : list pyval) (s : pystr) : Scan pyval :=
  match fuel with
  | O => ScanDepth
  | S f =>
      match scan_once f s with
      | Scanned v r =>
          let values' := values ++ [v] in
          match skip_ws r with
          | c :: r1 =>
              if c =? 93 then Scanned (PList values') r1
              else if c =? 44 then array_items f values' (skip_ws r1)
              else ScanError err_comma
          | [] => ScanError err_comma
          end
      | ScanError m => ScanError m
      | ScanDepth => ScanDepth
      end
  end
with object_items (fuel : nat) (pairs : list (pystr * pyval)) (s : pystr)
  : Scan pyval :=
  match fuel with
  | O => ScanDepth
  | S f =>
      match scanstring s [] with
      | Scanned key r =>
          match skip_ws r with
          | c :: r1 =>
              if c =? 58 then
                match scan_once f (skip_ws r1) with
                | Scanned v r2 =>
                    let pairs' := dict_set pairs key v in
                    match skip_ws r2 with
                    | c2 :: r3 =>
                        if c2 =? 125 then Scanned (PDict pairs') r3
                        else if c2 =? 44 then
                          match skip_ws r3 with
                          | q :: r4 =>
                              if q =? 34 then object_items f pairs' r4
                              else ScanError err_name
                          | [] => ScanError err_name
                          end
                        else ScanError err_comma
                    | [] => ScanError err_comma
                    end
                | ScanError m => ScanError m
                | ScanDepth => ScanDepth
                end
              else ScanError err_colon
          | [] => ScanError err_colon
          end
      | ScanError m => ScanError m
      | ScanDepth => ScanDepth
      end
  end.

(** [json.loads(s)]: the byte-order-mark check of [loads], then
    [JSONDecoder.decode]. *)
Definition json_loads (s : pystr) : Result pyval :=
  if startswith [65279] s then Raise (mkExc JSONDecodeError err_bom)
  else
    match scan_once (2 * length s + 1) (skip_ws s) with
    | Scanned v rest =>
        match skip_ws rest with
        | [] => Ok v
        | _ :: _ => Raise (mkExc JSONDecodeError err_extra)
        end
    | ScanError m => Raise (mkExc JSONDecodeError m)
    | ScanDepth => Raise (mkExc RecursionError (u "maximum recursion depth exceeded"))
    end.

(** ** The world and the handler monad *)

(** What [datetime.now()] returns. *)
Record DateTime := mkDateTime {
  year : N; month : N; day : N; hour : N; minute : N; second : N
}.

(** [strftime] with the format [%Y-%m-%d %H:%M:%S] *)
Definition strftime_log (t : DateTime) : pystr :=
  zpad 4 (year t) ++ u "-" ++ zpad 2 (month t) ++ u "-" ++ zpad 2 (day t)
  ++ u " " ++ zpad 2 (hour t) ++ u ":" ++ zpad 2 (minute t) ++ u ":"
  ++ zpad 2 (second t).

(** [strftime] with the format [%Y%m%d_%H%M%S] *)
Definition strftime_compact (t : DateTime) : pystr :=
  zpad 4 (year t) ++ zpad 2 (month t) ++ zpad 2 (day t) ++ u "_"
  ++ zpad 2 (hour t) ++ zpad 2 (minute t) ++ zpad 2 (second t).

Inductive Event :=
| EvFileWrite (path : pystr) (data : bytes)
| EvFileRemove (path : pystr)
| EvLogAppend (path : pystr) (line : pystr)
| EvPrint (line : pystr)
| EvChatCompletion (message : pystr)
| EvTranscription (audio : bytes)
| EvGenerateContent (image : bytes).

Record World := mkWorld {
  files : gmap pystr bytes;      (* binary files, by path *)
  logs : gmap pystr pystr;       (* text files opened for append, by path *)
  ticks : nat;                   (* clock readings taken so far *)
  temps : nat;                   (* temporary files named so far *)
  events : list Event            (* effects, oldest first *)
}.

(** Provider response objects, with the attributes the handlers read. *)
Record ChatChoice := mkChoice { message_content : option pystr }.
Record ChatCompletion := mkCompletion { choices : list ChatChoice }.
Record Transcription := mkTranscription { text : pystr }.
Record Part := mkPart { part_text : option pystr }.
Record Candidate := mkCandidate { content_parts : option (list Part) }.
Record GenerateContentResponse := mkGenResponse {
  candidates : option (list Candidate)
}.

(** The collaborators outside the repository. *)
Record Env := mkEnv {
  (* the successive readings of the system clock *)
  clock : nat -> DateTime;
  (* the path [tempfile] picks for the n-th temporary file with a suffix *)
  temp_name : nat -> pystr -> pystr;
  (* PIL: [Image.open] and [Image.verify] on the bytes of a file *)
  image_open : bytes -> Result unit;
  image_verify : bytes -> Result unit;
  (* Groq: [chat.completions.create] on the user message *)
  chat_completions_create : pystr -> Result ChatCompletion;
  (* Groq: [audio.transcriptions.create] on the audio file's bytes *)
  transcriptions_create : bytes -> Result Transcription;
  (* Gemini: [generate_content] on the fixed prompt and the image;
     [None] is a falsy result object *)
  generate_content : bytes -> Result (option GenerateContentResponse);
  (* whether the float denoted by a number text is non-zero *)
  float_nonzero : pystr -> bool
}.

Definition M (A : Type) : Type := World -> Result A * World.

Definition ret {A} (a : A) : M A := fun w => (Ok a, w).
Definition raise {A} (e : Exc) : M A := fun w => (Raise e, w).
Definition bind {A B} (m : M A) (k : A -> M B) : M B :=
  fun w =>
    match m w with
    | (Ok a, w') => k a w'
    | (Raise e, w') => (Raise e, w')
    end.

Notation "x <- m ;; k" := (bind m (fun x => k))
  (at level 100, m at next level, right associativity).
Notation "m ;;; k" := (bind m (fun _ => k))
  (at level 100, right associativity).

(** [try: body / except C as e: handler e], where [catches] tells the
    exceptions of class [C]. *)
Definition try_except {A} (body : M A) (catches : Exc -> bool)
    (handler : Exc -> M A) : M A :=
  fun w =>
    match body w with
    | (Ok a, w') => (Ok a, w')
    | (Raise e, w') => if catches e then handler e w' else (Raise e, w')
    end.

(** [except Exception] *)
Definition any_exception (e : Exc) : bool := true.

Definition class_eqb (a b : ExcClass) : bool :=
  match a, b with
  | UnidentifiedImageError, UnidentifiedImageError => true
  | JSONDecodeError, JSONDecodeError => true
  | ValueError, ValueError => true
  | IndexError, IndexError => true
  | AttributeError, AttributeError => true
  | FileNotFoundError, FileNotFoundError => true
  | RecursionError, RecursionError => true
  | OtherException n, OtherException m => pystr_eqb n m
  | _, _ => false
  end.

(** [except C]: the exceptions whose class is [C]. *)
Definition is_class (c : ExcClass) (e : Exc) : bool :=
  class_eqb c (exc_class e).

Definition lift {A} (r : Result A) : M A := fun w => (r, w).

Definition emit (ev : Event) : M unit :=
  fun w => (Ok tt, mkWorld (files w) (logs w) (ticks w) (temps w)
                           (events w ++ [ev])).

(** [datetime.now()] *)
Definition datetime_now (env : Env) : M DateTime :=
  fun w => (Ok (clock env (ticks w)),
            mkWorld (files w) (logs w) (S (ticks w)) (temps w) (events w)).

(** [with open(path, 'wb') as out: out.write(data)] *)
Definition write_file (path : pystr) (data : bytes) : M unit :=
  fun w => (Ok tt, mkWorld (<[path := data]> (files w)) (logs w) (ticks w)
                           (temps w) (events w ++ [EvFileWrite path data])).

(** [with open(path, 'a', encoding='utf-8') as f: f.write(line)] *)
Definition append_text (path : pystr) (line : pystr) : M unit :=
  fun w => (Ok tt,
            mkWorld (files w)
                    (<[path := default [] (logs w !! path) ++ line]> (logs w))
                    (ticks w) (temps w) (events w ++ [EvLogAppend path line])).

(** [os.remove(path)] *)
Definition os_remove (path : pystr) : M unit :=
  fun w =>
    match files w !! path with
    | Some _ => (Ok tt, mkWorld (delete path (files w)) (logs w) (ticks w)
                                (temps w) (events w ++ [EvFileRemove path]))
    | None => (Raise (mkExc FileNotFoundError path), w)
    end.

(** [tempfile.NamedTemporaryFile(delete=False, suffix=...)]: the file is
    created empty and its name returned. *)
Definition named_temporary_file (env : Env) (suffix : pystr) : M pystr :=
  fun w =>
    let path := temp_name env (temps w) suffix in
    (Ok path, mkWorld (<[path := []]> (files w)) (logs w) (ticks w)
                      (S (temps w)) (events w ++ [EvFileWrite path []])).

(** Reading a file back: [open(path, 'rb')] *)
Definition read_file (path : pystr) : M bytes :=
  fun w =>
    match files w !! path with
    | Some data => (Ok data, w)
    | None => (Raise (mkExc FileNotFoundError path), w)
    end.

(** [print(label, e)] *)
Definition print (label : pystr) (e : Exc) : M unit :=
  emit (EvPrint (label ++ u " " ++ exc_msg e ++ [10])).

(** ** Requests and responses *)

(** An uploaded file of a multipart request (werkzeug's [FileStorage]). *)
Record FileStorage := mkFile { filename : pystr; stream : bytes }.

Record Request := mkRequest {
  (* the outcome of [request.get_json(force=True)] *)
  get_json : Result pyval;
  (* [request.files] *)
  request_files : list (pystr * FileStorage)
}.

(** [request.files[name]] when [name in request.files] *)
Fixpoint files_get (fs : list (pystr * FileStorage)) (name : pystr)
  : option FileStorage :=
  match fs with
  | [] => None
  | (k, f) :: r => if pystr_eqb k name then Some f else files_get r name
  end.

(** A response: the value handed to [jsonify] and the status code. *)
Record Response := mkResponse { body : pyval; status : N }.

Definition jsonify (v : pyval) : Response := mkResponse v 200.
Definition jsonify_status (v : pyval) (code : N) : Response :=
  mkResponse v code.

Definition type_name (v : pyval) : pystr :=
  match v with
  | PNone => u "NoneType"
  | PBool _ => u "bool"
  | PInt _ => u "int"
  | PFloat _ => u "float"
  | PStr _ => u "str"
  | PList _ => u "list"
  | PDict _ => u "dict"
  end.

Definition no_attribute (v : pyval) (attr : pystr) : Exc :=
  mkExc AttributeError
        (u "'" ++ type_name v ++ u "' object has no attribute '" ++ attr
           ++ u "'").

(** Truth value of a Python object. *)
Definition truthy (env : Env) (v : pyval) : bool :=
  match v with
  | PNone => false
  | PBool b => b
  | PInt z => negb (z =? 0)%Z
  | PFloat x => float_nonzero env x
  | PStr s => match s with [] => false | _ => true end
  | PList l => match l with [] => false | _ => true end
  | PDict d => match d with [] => false | _ => true end
  end.

(** [a or b] *)
Definition py_or (env : Env) (a b : pyval) : pyval :=
  if truthy env a then a else b.

(** [data.get(key)] *)
Definition method_get (data : pyval) (key : pystr) : Result pyval :=
  match data with
  | PDict d => Ok (default PNone (dict_get d key))
  | _ => Raise (no_attribute data (u "get"))
  end.

(** [v.strip()] *)
Definition method_strip (v : pyval) : Result pystr :=
  match v with
  | PStr s => Ok (strip s)
  | _ => Raise (no_attribute v (u "strip"))
  end.

Definition is_empty (s : pystr) : bool :=
  match s with [] => true | _ => false end.

(** ** Logging helpers *)

(** [log_event(filename, message, file)] *)
Definition log_event (env : Env) (filename message file : pystr) : M unit :=
  now <- datetime_now env;;
  append_text file
    (u "[" ++ strftime_log now ++ u "] " ++ filename ++ u ": " ++ message
       ++ [10]).

Definition status_sep : pystr := u " | Status: ".

(** [log_chat_message(user_message, status)] *)
Definition log_chat_message (env : Env) (user_message status : pystr)
  : M unit :=
  log_event env (u "Chat") (user_message ++ status_sep ++ status)
            (u "chat_logs.txt").

(** [log_pest_upload(filename, status)] *)
Definition log_pest_upload (env : Env) (name status : pystr) : M unit :=
  log_event env (u "Pest") (name ++ status_sep ++ status)
            (u "pest_uploads.txt").

Definition UPLOADS_DIR : pystr := u "uploaded_images".

(** ** Provider calls *)

Definition call_chat (env : Env) (user_message : pystr) : M ChatCompletion :=
  emit (EvChatCompletion user_message);;;
  lift (chat_completions_create env user_message).

Definition call_transcription (env : Env) (audio : bytes) : M Transcription :=
  emit (EvTranscription audio);;;
  lift (transcriptions_create env audio).

Definition call_generate (env : Env) (image : bytes)
  : M (option GenerateContentResponse) :=
  emit (EvGenerateContent image);;;
  lift (generate_content env image).

(** ** [POST /chat] *)

Definition reply (s : pystr) : pyval := PDict [(u "reply", PStr s)].
Definition error_body (s : pystr) : pyval := PDict [(u "error", PStr s)].

Definition chat_body (env : Env) (request : Request) : M Response :=
  data <- lift (get_json request);;
  message <- lift (method_get data (u "message"));;
  user_message <- lift (method_strip (py_or env message (PStr [])));;
  if is_empty user_message then
    ret (jsonify_status (reply (u "Please enter a valid message.")) 400)
  else
    response <- call_chat env user_message;;
    choice <- lift (match choices response with
                    | c :: _ => Ok c
                    | [] => Raise (mkExc IndexError
                                         (u "list index out of range"))
                    end);;
    let ai_reply := match message_content choice with
                    | Some s => PStr s
                    | None => PNone
                    end in
    log_chat_message env user_message (u "Response OK");;;
    ret (jsonify (PDict [(u "reply", ai_reply)])).

Definition chat (env : Env) (request : Request) : M Response :=
  try_except (chat_body env request) any_exception
    (fun e =>
       print (u "Chat error:") e;;;
       log_chat_message env (exc_msg e) (u "Chat generation failed");;;
       ret (jsonify_status (reply (u "Error processing your message.")) 500)).

(** ** [POST /transcribe] *)

Definition transcribe_body (env : Env) (request : Request) : M Response :=
  match files_get (request_files request) (u "file") with
  | None => ret (jsonify_status (error_body (u "No file uploaded")) 400)
  | Some file =>
      temp_path <- named_temporary_file env (u ".webm");;
      write_file temp_path (stream file);;;
      f <- read_file temp_path;;
      result <- call_transcription env f;;
      os_remove temp_path;;;
      ret (jsonify (PDict [(u "text", PStr (strip (text result)))]))
  end.

Definition transcribe_audio (env : Env) (request : Request) : M Response :=
  try_except (transcribe_body env request) any_exception
    (fun e =>
       print (u "Transcription error:") e;;;
       ret (jsonify_status (error_body (u "Transcription failed")) 500)).

(** ** [POST /detect_pest] *)

(** The text gathered from the parts of every candidate, in order. *)
Definition concatenate_text (result : option GenerateContentResponse)
  : pystr :=
  match result with
  | Some r =>
      match candidates r with
      | Some (c :: cs) =>
          flat_map
            (fun c =>
               flat_map (fun part => default [] (part_text part))
                        (default [] (content_parts c)))
            (c :: cs)
      | _ => []
      end
  | None => []
  end.

(** The record built when the model's text is not JSON. *)
Definition fallback_record (env : Env) (text : pystr) : pyval :=
  PDict [
    (u "pest_name", PStr (u "Unknown Pest"));
    (u "confidence", PStr (u "N/A"));
    (u "description",
       py_or env (PStr (strip text))
             (PStr (u "Unable to parse model output.")));
    (u "severity", PStr (u "Unknown"));
    (u "organic_treatments", PList []);
    (u "chemical_treatments", PList []);
    (u "prevention_tips", PList [])
  ].

(** Lines 167 to 191: from the model's result to the response. *)
Definition normalize (env : Env) (file : FileStorage)
    (result : option GenerateContentResponse) : M Response :=
  let text := concatenate_text result in
  (if is_empty (strip text)
   then raise (mkExc ValueError (u "Empty response from model"))
   else ret tt);;;
  pest_data <-
    try_except
      (pest_data <- lift (json_loads text);;
       log_pest_upload env (filename file) (u "Detection OK");;;
       ret pest_data)
      (is_class JSONDecodeError)
      (fun _ =>
         let pest_data := fallback_record env text in
         log_pest_upload env (filename file) (u "JSON parse fallback");;;
         ret pest_data);;
  ret (jsonify pest_data).

Definition detect_pest_body (env : Env) (request : Request) : M Response :=
  match files_get (request_files request) (u "file") with
  | None => ret (jsonify_status (error_body (u "No file uploaded")) 400)
  | Some file =>
      if is_empty (filename file) then
        ret (jsonify_status (error_body (u "No file selected")) 400)
      else
        let image_bytes := stream file in
        rejected <-
          try_except
            (lift (image_open env image_bytes);;;
             lift (image_verify env image_bytes);;;
             ret None)
            (is_class UnidentifiedImageError)
            (fun _ =>
               ret (Some (jsonify_status
                            (error_body (u "Invalid or corrupted image file"))
                            400)));;
        match rejected with
        | Some response => ret response
        | None =>
            now <- datetime_now env;;
            let timestamp := strftime_compact now in
            let save_path :=
              os_path_join UPLOADS_DIR
                (timestamp ++ u "_" ++ replace_char 32 95 (filename file)) in
            write_file save_path image_bytes;;;
            img_path <- named_temporary_file env (u ".jpg");;
            write_file img_path image_bytes;;;
            image <- read_file img_path;;
            lift (image_open env image);;;
            result <- call_generate env image;;
            os_remove img_path;;;
            normalize env file result
        end
  end.

Definition detect_pest (env : Env) (request : Request) : M Response :=
  try_except (detect_pest_body env request) any_exception
    (fun e =>
       print (u "Pest detection error:") e;;;
       log_pest_upload env
         (match files_get (request_files request) (u "file") with
          | Some file => filename file
          | None => u "Unknown"
          end)
         (u "Error: " ++ exc_msg e);;;
       ret (jsonify_status (error_body (u "Pest detection failed")) 500)).

(** * Vocabulary of the statements

    The worlds a request passes through, the fixed responses, and the
    predicates the properties are stated with. *)

(** ** [/detect_pest]: the stages of a request with a decodable image *)

(** A request that carries an upload whose bytes PIL opens and verifies. *)
Definition decodable_upload (env : Env) (request : Request)
    (file : FileStorage) : Prop :=
  files_get (request_files request) (u "file") = Some file
  /\ filename file <> []
  /\ image_open env (stream file) = Ok tt
  /\ image_verify env (stream file) = Ok tt.

(** The archive key and the temporary path a request gets in world [w]. *)
Definition archive_name (env : Env) (w : World) (file : FileStorage) : pystr :=
  strftime_compact (clock env (ticks w)) ++ u "_"
    ++ replace_char 32 95 (filename file).

Definition save_path (env : Env) (w : World) (file : FileStorage) : pystr :=
  os_path_join UPLOADS_DIR (archive_name env w file).

Definition img_path (env : Env) (w : World) : pystr :=
  temp_name env (temps w) (u ".jpg").

(** The world once [generate_content] has been called. *)
Definition world_at_call (env : Env) (w : World) (file : FileStorage) : World :=
  mkWorld
    (<[img_path env w := stream file]>
       (<[img_path env w := []]>
          (<[save_path env w file := stream file]> (files w))))
    (logs w) (S (ticks w)) (S (temps w))
    (events w ++ [EvFileWrite (save_path env w file) (stream file);
                  EvFileWrite (img_path env w) [];
                  EvFileWrite (img_path env w) (stream file);
                  EvGenerateContent (stream file)]).

(** The world once the temporary image has been removed. *)
Definition world_after_remove (env : Env) (w : World) (file : FileStorage)
  : World :=
  mkWorld
    (delete (img_path env w) (files (world_at_call env w file)))
    (logs w) (S (ticks w)) (S (temps w))
    (events (world_at_call env w file) ++ [EvFileRemove (img_path env w)]).

(** ** The audit log of [/detect_pest] *)

(** One line of [pest_uploads.txt]. *)
Definition pest_log_line (t : DateTime) (name status : pystr) : pystr :=
  u "[" ++ strftime_log t ++ u "] Pest: " ++ name ++ u " | Status: "
    ++ status ++ [10].

Definition pest_log : pystr := u "pest_uploads.txt".

(** The world after [log_pest_upload name status]. *)
Definition world_logged (env : Env) (w : World) (name status : pystr)
  : World :=
  let line := pest_log_line (clock env (ticks w)) name status in
  mkWorld (files w)
          (<[pest_log := default [] (logs w !! pest_log) ++ line]> (logs w))
          (S (ticks w)) (temps w)
          (events w ++ [EvLogAppend pest_log line]).

(** The world after [print label e]. *)
Definition world_printed (w : World) (label : pystr) (e : Exc) : World :=
  mkWorld (files w) (logs w) (ticks w) (temps w)
          (events w ++ [EvPrint (label ++ u " " ++ exc_msg e ++ [10])]).

(** ** The responses of [/detect_pest] *)

(** The fallback record with a given description. *)
Definition canonical_fallback (description : pystr) : pyval :=
  PDict [
    (u "pest_name", PStr (u "Unknown Pest"));
    (u "confidence", PStr (u "N/A"));
    (u "description", PStr description);
    (u "severity", PStr (u "Unknown"));
    (u "organic_treatments", PList []);
    (u "chemical_treatments", PList []);
    (u "prevention_tips", PList [])
  ].

Definition empty_response : Exc :=
  mkExc ValueError (u "Empty response from model").

Definition pest_failed : Response :=
  mkResponse (error_body (u "Pest detection failed")) 500.

Definition logged_name (request : Request) : pystr :=
  match files_get (request_files request) (u "file") with
  | Some file => filename file
  | None => u "Unknown"
  end.

(** The world the [except Exception] block of [detect_pest] leaves. *)
Definition world_pest_failed (env : Env) (request : Request) (w : World)
    (e : Exc) : World :=
  world_logged env (world_printed w (u "Pest detection error:") e)
               (logged_name request) (u "Error: " ++ exc_msg e).

(** ** [/detect_pest]: decoding the upload *)

(** The outcome of lines 122 and 123: [Image.open] on the uploaded bytes,
    then [verify]. *)
Definition image_check (env : Env) (image_bytes : bytes) : Result unit :=
  match image_open env image_bytes with
  | Ok _ => image_verify env image_bytes
  | Raise e => Raise e
  end.

Definition no_file_uploaded : Response :=
  mkResponse (error_body (u "No file uploaded")) 400.
Definition no_file_selected : Response :=
  mkResponse (error_body (u "No file selected")) 400.
Definition invalid_image : Response :=
  mkResponse (error_body (u "Invalid or corrupted image file")) 400.

(** ** The shape of a pest-detection record *)

Definition is_str_field (d : list (pystr * pyval)) (k : pystr) : bool :=
  match dict_get d k with
  | Some (PStr _) => true
  | _ => false
  end.

Definition is_str_list_field (d : list (pystr * pyval)) (k : pystr) : bool :=
  match dict_get d k with
  | Some (PList l) =>
      forallb (fun v => match v with PStr _ => true | _ => false end) l
  | _ => false
  end.

(** A pest-detection record with its seven fields populated: four strings
    and three lists of strings. *)
Definition is_pest_detection_result (v : pyval) : bool :=
  match v with
  | PDict d =>
      forallb (is_str_field d)
              [u "pest_name"; u "confidence"; u "description"; u "severity"]
      && forallb (is_str_list_field d)
                 [u "organic_treatments"; u "chemical_treatments";
                  u "prevention_tips"]
  | _ => false
  end.

Definition description_of (v : pyval) : option pyval :=
  match v with
  | PDict d => dict_get d (u "description")
  | _ => None
  end.

(** ** [/chat] *)

Definition chat_log : pystr := u "chat_logs.txt".

(** One line of [chat_logs.txt]. *)
Definition chat_log_line (t : DateTime) (message status : pystr) : pystr :=
  u "[" ++ strftime_log t ++ u "] Chat: " ++ message ++ u " | Status: "
    ++ status ++ [10].

(** The world after [log_chat_message message status]. *)
Definition world_chat_logged (env : Env) (w : World) (message status : pystr)
  : World :=
  let line := chat_log_line (clock env (ticks w)) message status in
  mkWorld (files w)
          (<[chat_log := default [] (logs w !! chat_log) ++ line]> (logs w))
          (S (ticks w)) (temps w)
          (events w ++ [EvLogAppend chat_log line]).

Definition chat_failed : Response :=
  mkResponse (reply (u "Error processing your message.")) 500.

(** The world the [except Exception] block of [chat] leaves. *)
Definition world_chat_failed (env : Env) (w : World) (e : Exc) : World :=
  world_chat_logged env (world_printed w (u "Chat error:") e)
                    (exc_msg e) (u "Chat generation failed").

(** The message a well-formed chat request carries, trimmed. *)
Definition chat_message (request : Request) (message : pystr) : Prop :=
  exists d s,
    get_json request = Ok (PDict d)
    /\ dict_get d (u "message") = Some (PStr s)
    /\ strip s = message.

(** ** [/transcribe] *)

Definition transcription_failed : Response :=
  mkResponse (error_body (u "Transcription failed")) 500.

Definition webm_path (env : Env) (w : World) : pystr :=
  temp_name env (temps w) (u ".webm").

(** The world once [transcriptions.create] has been called. *)
Definition world_at_transcription (env : Env) (w : World)
    (file : FileStorage) : World :=
  mkWorld
    (<[webm_path env w := stream file]>
       (<[webm_path env w := []]> (files w)))
    (logs w) (ticks w) (S (temps w))
    (events w ++ [EvFileWrite (webm_path env w) [];
                  EvFileWrite (webm_path env w) (stream file);
                  EvTranscription (stream file)]).

(** The world once the temporary audio file has been removed. *)
Definition world_after_transcription (env : Env) (w : World)
    (file : FileStorage) : World :=
  mkWorld
    (delete (webm_path env w) (files (world_at_transcription env w file)))
    (logs w) (ticks w) (S (temps w))
    (events (world_at_transcription env w file)
       ++ [EvFileRemove (webm_path env w)]).

(** ** Sample collaborators and requests, used to run the handlers *)

Module Sample.

Definition clock (n : nat) : DateTime :=
  mkDateTime 2025 1 15 10 30 (N.of_nat n).

Definition temp_name (n : nat) (suffix : pystr) : pystr :=
  u "/tmp/tmp" ++ digits (N.of_nat n) ++ suffix.

Definition png_signature : bytes := [x89; x50; x4e; x47; x0d; x0a; x1a; x0a].

Fixpoint has_prefix (p b : bytes) : bool :=
  match p, b with
  | [], _ => true
  | x :: p', y :: b' => Byte.eqb x y && has_prefix p' b'
  | _ :: _, [] => false
  end.

(** A decoder that identifies a file by the PNG signature. *)
Definition image_open (b : bytes) : Result unit :=
  if has_prefix png_signature b then Ok tt
  else Raise (mkExc UnidentifiedImageError (u "cannot identify image file")).

Definition image_verify (b : bytes) : Result unit := Ok tt.

Definition connection_error : Exc :=
  mkExc (OtherException (u "APIConnectionError")) (u "Connection error.").

(** A model result with one candidate whose parts carry the given texts. *)
Definition result_of_parts (texts : list pystr)
  : option GenerateContentResponse :=
  Some (mkGenResponse
          (Some [mkCandidate (Some (map (fun t => mkPart (Some t)) texts))])).

(** Collaborators whose providers answer with fixed outcomes. *)
Definition env (chat_outcome : Result ChatCompletion)
    (audio_outcome : Result Transcription)
    (vision_outcome : Result (option GenerateContentResponse)) : Env :=
  mkEnv clock temp_name image_open image_verify
        (fun _ => chat_outcome) (fun _ => audio_outcome)
        (fun _ => vision_outcome) (fun _ => true).

(** Collaborators whose vision model answers with the given text. *)
Definition vision_env (texts : list pystr) : Env :=
  env (Raise connection_error) (Raise connection_error)
      (Ok (result_of_parts texts)).

(** Collaborators whose providers are all unreachable. *)
Definition offline_env : Env :=
  env (Raise connection_error) (Raise connection_error)
      (Raise connection_error).

Definition leaf : FileStorage :=
  mkFile (u "leaf photo.png") (png_signature ++ [x00; x01; x02]).

Definition garbage : FileStorage :=
  mkFile (u "notes.txt") [x68; x69].

Definition upload (file : FileStorage) : Request :=
  mkRequest (Raise (mkExc (OtherException (u "BadRequest")) (u "400 Bad Request")))
            [(u "file", file)].

Definition json_request (v : pyval) : Request := mkRequest (Ok v) [].

Definition world0 : World := mkWorld ∅ ∅ 0 0 [].

End Sample.

Module SampleJson.

(** The code points of a literal in which each apostrophe stands for a
    double quote. *)
Definition q (s : string) : pystr := replace_char 39 34 (u s).

(** A model answer of the requested shape, delivered in three parts. *)
Definition aphid_parts : list pystr := [
  q "{'pest_name': 'Aphids', 'confidence': 'High', ";
  q "'description': 'Sap-sucking insects', 'severity': 'Moderate', 'organic_treatments': ['Neem oil'], ";
  q "'chemical_treatments': [], 'prevention_tips': ['Inspect weekly']}"
].

Definition aphid_record : pyval :=
  PDict [
    (u "pest_name", PStr (u "Aphids"));
    (u "confidence", PStr (u "High"));
    (u "description", PStr (u "Sap-sucking insects"));
    (u "severity", PStr (u "Moderate"));
    (u "organic_treatments", PList [PStr (u "Neem oil")]);
    (u "chemical_treatments", PList []);
    (u "prevention_tips", PList [PStr (u "Inspect weekly")])
  ].

End SampleJson.

Module SampleAudio.
Definition voice : FileStorage :=
  mkFile (u "question.webm") [x1a; x45; xdf; xa3; x01].
Definition hello : Request :=
  Sample.json_request (PDict [(u "message", PStr (u " hello "))]).
End SampleAudio.

(** ** Vocabulary of the further properties *)

(** The effects a run added to the trace of the world it started in. *)
Definition new_events (w w' : World) : list Event :=
  drop (length (events w)) (events w').

(** The events that are calls to a hosted provider. *)
Definition is_provider_call (ev : Event) : bool :=
  match ev with
  | EvChatCompletion _ | EvTranscription _ | EvGenerateContent _ => true
  | _ => false
  end.

(** The number of provider calls in a trace. *)
Fixpoint provider_calls (evs : list Event) : nat :=
  match evs with
  | [] => 0
  | ev :: rest =>
      ((if is_provider_call ev then 1 else 0) + provider_calls rest)%nat
  end.

(** Lines 50 and 51 of [chat]: the trimmed user message, or the exception
    raised on the way to it. *)
Definition chat_input (env : Env) (request : Request) : Result pystr :=
  match get_json request with
  | Raise e => Raise e
  | Ok data =>
      match method_get data (u "message") with
      | Raise e => Raise e
      | Ok message => method_strip (py_or env message (PStr []))
      end
  end.

(** The world once [chat.completions.create] has been called. *)
Definition world_chat_called (w : World) (message : pystr) : World :=
  mkWorld (files w) (logs w) (ticks w) (temps w)
          (events w ++ [EvChatCompletion message]).

Definition index_error : Exc :=
  mkExc IndexError (u "list index out of range").

Definition blank_message : Response :=
  mkResponse (reply (u "Please enter a valid message.")) 400.

(** The value [jsonify] gets for the content of a choice. *)
Definition reply_of (choice : ChatChoice) : pyval :=
  PDict [(u "reply", match message_content choice with
                     | Some s => PStr s
                     | None => PNone
                     end)].

(** A log line as [log_event] writes it. *)
Definition log_line (t : DateTime) (area message : pystr) : pystr :=
  u "[" ++ strftime_log t ++ u "] " ++ area ++ u ": " ++ message ++ [10].

(** Every log file of [w] is still there in [w'], with its old content
    as a prefix of the new. *)
Definition logs_grow (w w' : World) : Prop :=
  forall path old,
    logs w !! path = Some old ->
    exists more, logs w' !! path = Some (old ++ more).

(** The log files other than [file] are in [w'] as they were in [w]. *)
Definition logs_same_outside (file : pystr) (w w' : World) : Prop :=
  forall path, path <> file -> logs w' !! path = logs w !! path.

(** A date and time of the calendar, with a four-digit year. *)
Definition calendar_date (t : DateTime) : Prop :=
  1000 <= year t <= 9999 /\ 1 <= month t <= 12 /\ 1 <= day t <= 31
  /\ hour t <= 23 /\ minute t <= 59 /\ second t <= 59.

(** The characters of a compact timestamp: digits and the underscore. *)
Definition is_stamp_char (c : N) : bool := is_digit c || (c =? 95).

(** The collaborators [env] with another vision model. *)
Definition with_generate (env : Env)
    (generate : bytes -> Result (option GenerateContentResponse)) : Env :=
  mkEnv (clock env) (temp_name env) (image_open env) (image_verify env)
        (chat_completions_create env) (transcriptions_create env)
        generate (float_nonzero env).



Module SampleChat.

Definition answer (s : pystr) : Result ChatCompletion :=
  Ok (mkCompletion [mkChoice (Some s); mkChoice (Some (u "unused"))]).

(** Collaborators whose completion provider answers with a fixed text. *)
Definition env (s : pystr) : Env :=
  Sample.env (answer s) (Raise Sample.connection_error)
             (Raise Sample.connection_error).

(** Collaborators whose transcription provider answers with a fixed text. *)
Definition audio_env (s : pystr) : Env :=
  Sample.env (Raise Sample.connection_error) (Ok (mkTranscription s))
             (Raise Sample.connection_error).



Definition no_message : Request :=
  Sample.json_request (PDict [(u "text", PStr (u "hello"))]).

Definition no_upload : Request := Sample.json_request PNone.

Definition unnamed : FileStorage :=
  mkFile [] (Sample.png_signature ++ [x00]).

Definition broken_png : Exc :=
  mkExc (OtherException (u "SyntaxError")) (u "broken PNG file").

(** Collaborators whose decoder opens every file and then finds it
    broken. *)
Definition broken_env : Env :=
  mkEnv Sample.clock Sample.temp_name (fun _ => Ok tt)
        (fun _ => Raise broken_png)
        (fun _ => Raise Sample.connection_error)
        (fun _ => Raise Sample.connection_error)
        (fun _ => Raise Sample.connection_error) (fun _ => true).

(** Collaborators whose clock stands still and whose vision model answers
    with an empty JSON object. *)
Definition frozen_env : Env :=
  mkEnv (fun _ => Sample.clock 0) Sample.temp_name Sample.image_open
        Sample.image_verify
        (fun _ => Raise Sample.connection_error)
        (fun _ => Raise Sample.connection_error)
        (fun _ => Ok (Sample.result_of_parts [u "{}"])) (fun _ => true).

Definition leaf_again : FileStorage :=
  mkFile (u "leaf_photo.png") (Sample.png_signature ++ [xff]).

End SampleChat.

(** * The handlers when local operations can fail

    The handlers above read the program with every local operation
    succeeding and with [except Exception] catching whatever is raised.
    [Io] is the same program without those two readings: the operating
    system may refuse to open, write or remove a file, and the standard
    output may refuse a printed text; a line written to a log is encoded
    in UTF-8, which has no encoding for a lone surrogate; the interpreter
    may refuse to decode the model's text or to encode the parsed value,
    as it does past its recursion depth; and [except Exception] lets
    through the exceptions that derive from [BaseException] only. *)

Module Io.

Inductive OpenMode := ModeRead | ModeWrite | ModeAppend.

(** The operations whose outcome is decided outside the program: by the
    operating system, by the conversion of a path for it, by the encoding
    of the standard output, or by the limits the interpreter sets to the
    depth of a JSON value and to the digits of an integer. *)
Inductive IoOp :=
| OpOpen (path : pystr) (mode : OpenMode)     (* open(path, mode) *)
| OpWrite (path : pystr) (data : bytes)       (* write on a binary file *)
| OpWriteText (path : pystr) (text : pystr)   (* write of encoded text *)
| OpTempFile (suffix : pystr)                 (* NamedTemporaryFile(...) *)
| OpRemove (path : pystr)                     (* os.remove(path) *)
| OpPrint (label text : pystr)                (* print(label, text) *)
| OpJsonLoads (text : pystr)                  (* json.loads(text) *)
| OpJsonify (value : pyval).                  (* jsonify(value) *)

(** The exception an operation is refused with, if it is refused. *)
Definition Os : Type := IoOp -> option Exc.

Definition attempt (os : Os) (op : IoOp) : M unit :=
  match os op with
  | Some e => raise e
  | None => ret tt
  end.

(** ** Encoding text in UTF-8 *)

Definition is_surrogate (c : N) : bool :=
  is_high_surrogate c || is_low_surrogate c.

(** The number of surrogates a text starts with. *)
Fixpoint surrogate_run (s : pystr) : N :=
  match s with
  | c :: r => if is_surrogate c then 1 + surrogate_run r else 0
  | [] => 0
  end.

(** The first surrogate of a text: the code point, its position and the
    length of the run of surrogates it starts. *)
Fixpoint find_surrogate (s : pystr) (pos : N) : option (N * N * N) :=
  match s with
  | [] => None
  | c :: r =>
      if is_surrogate c then Some (c, pos, 1 + surrogate_run r)
      else find_surrogate r (pos + 1)
  end.

Definition hex_digit (n : N) : N := if n <? 10 then 48 + n else 87 + n.

Definition hex4_text (c : N) : pystr :=
  [hex_digit (c / 4096 mod 16); hex_digit (c / 256 mod 16);
   hex_digit (c / 16 mod 16); hex_digit (c mod 16)].

Definition UnicodeEncodeError : ExcClass :=
  OtherException (u "UnicodeEncodeError").

(** The [UnicodeEncodeError] that [s.encode('utf-8')] raises, if it
    raises: the text holds a surrogate. *)
Definition encode_error (s : pystr) : option Exc :=
  match find_surrogate s 0 with
  | None => None
  | Some (c, pos, n) =>
      Some (mkExc UnicodeEncodeError
              (if n =? 1
               then u "'utf-8' codec can't encode character '\u"
                      ++ hex4_text c ++ u "' in position " ++ digits pos
                      ++ u ": surrogates not allowed"
               else u "'utf-8' codec can't encode characters in position "
                      ++ digits pos ++ u "-" ++ digits (pos + n - 1)
                      ++ u ": surrogates not allowed"))
  end.

(** ** Exception classes *)

(** The classes of the interpreter and its standard library that derive
    from [BaseException] and not from [Exception]; the classes that the
    libraries of the collaborators define derive from [Exception]. *)
Definition base_only : list pystr :=
  [u "BaseException"; u "KeyboardInterrupt"; u "SystemExit";
   u "GeneratorExit"; u "BaseExceptionGroup"; u "CancelledError"].

(** [except Exception] *)
Definition derives_from_exception (e : Exc) : bool :=
  match exc_class e with
  | OtherException name => negb (existsb (pystr_eqb name) base_only)
  | _ => true
  end.

(** ** Local operations *)

Definition has_nul (path : pystr) : bool := existsb (N.eqb 0) path.

Definition embedded_null : Exc := mkExc ValueError (u "embedded null byte").

(** [open(path, mode)], up to the point where the file is open. *)
Definition open_file (os : Os) (path : pystr) (mode : OpenMode) : M unit :=
  if has_nul path then raise embedded_null
  else attempt os (OpOpen path mode).

(** What opening a file for writing does to it: it is there and empty. *)
Definition truncate (path : pystr) : M unit :=
  fun w => (Ok tt, mkWorld (<[path := []]> (files w)) (logs w) (ticks w)
                           (temps w) (events w)).

(** What opening a log for appending does to it: it is there. *)
Definition touch (path : pystr) : M unit :=
  fun w => (Ok tt, mkWorld (files w)
                           (<[path := default [] (logs w !! path)]> (logs w))
                           (ticks w) (temps w) (events w)).

(** [out.write(data)] on a binary file that is open *)
Definition write_bytes (os : Os) (path : pystr) (data : bytes) : M unit :=
  attempt os (OpWrite path data);;;
  write_file path data.

(** [with open(path, 'wb') as out: out.write(data)] *)
Definition save (os : Os) (path : pystr) (data : bytes) : M unit :=
  open_file os path ModeWrite;;;
  truncate path;;;
  write_bytes os path data.

(** [with open(path, 'a', encoding='utf-8') as f: f.write(line)] *)
Definition append_line (os : Os) (path : pystr) (line : pystr) : M unit :=
  open_file os path ModeAppend;;;
  touch path;;;
  match encode_error line with
  | Some e => raise e
  | None =>
      attempt os (OpWriteText path line);;;
      append_text path line
  end.

(** [tempfile.NamedTemporaryFile(delete=False, suffix=...)] *)
Definition temporary_file (os : Os) (env : Env) (suffix : pystr) : M pystr :=
  attempt os (OpTempFile suffix);;;
  named_temporary_file env suffix.

(** [open(path, 'rb')] and what is read from it *)
Definition read_back (os : Os) (path : pystr) : M bytes :=
  open_file os path ModeRead;;;
  read_file path.

(** [os.remove(path)] *)
Definition remove (os : Os) (path : pystr) : M unit :=
  (if has_nul path then raise embedded_null else ret tt);;;
  attempt os (OpRemove path);;;
  os_remove path.

(** [print(label, e)]; what a print that raises has written before it
    raises is not kept in the trace. *)
Definition print_error (os : Os) (label : pystr) (e : Exc) : M unit :=
  attempt os (OpPrint label (exc_msg e));;;
  print label e.

(** ** Logging helpers *)

(** [log_event(filename, message, file)] *)
Definition log_event (os : Os) (env : Env) (filename message file : pystr)
  : M unit :=
  now <- datetime_now env;;
  append_line os file
    (u "[" ++ strftime_log now ++ u "] " ++ filename ++ u ": " ++ message
       ++ [10]).

(** [log_chat_message(user_message, status)] *)
Definition log_chat_message (os : Os) (env : Env)
    (user_message status : pystr) : M unit :=
  log_event os env (u "Chat") (user_message ++ status_sep ++ status)
            (u "chat_logs.txt").

(** [log_pest_upload(filename, status)] *)
Definition log_pest_upload (os : Os) (env : Env) (name status : pystr)
  : M unit :=
  log_event os env (u "Pest") (name ++ status_sep ++ status)
            (u "pest_uploads.txt").

(** ** [POST /chat] *)

Definition chat_body (os : Os) (env : Env) (request : Request) : M Response :=
  data <- lift (get_json request);;
  message <- lift (method_get data (u "message"));;
  user_message <- lift (method_strip (py_or env message (PStr [])));;
  if is_empty user_message then
    ret (jsonify_status (reply (u "Please enter a valid message.")) 400)
  else
    response <- call_chat env user_message;;
    choice <- lift (match choices response with
                    | c :: _ => Ok c
                    | [] => Raise (mkExc IndexError
                                         (u "list index out of range"))
                    end);;
    let ai_reply := match message_content choice with
                    | Some s => PStr s
                    | None => PNone
                    end in
    log_chat_message os env user_message (u "Response OK");;;
    ret (jsonify (PDict [(u "reply", ai_reply)])).

Definition chat (os : Os) (env : Env) (request : Request) : M Response :=
  try_except (chat_body os env request) derives_from_exception
    (fun e =>
       print_error os (u "Chat error:") e;;;
       log_chat_message os env (exc_msg e) (u "Chat generation failed");;;
       ret (jsonify_status (reply (u "Error processing your message.")) 500)).

(** ** [POST /transcribe] *)

Definition transcribe_body (os : Os) (env : Env) (request : Request)
  : M Response :=
  match files_get (request_files request) (u "file") with
  | None => ret (jsonify_status (error_body (u "No file uploaded")) 400)
  | Some file =>
      temp_path <- temporary_file os env (u ".webm");;
      save os temp_path (stream file);;;
      f <- read_back os temp_path;;
      result <- call_transcription env f;;
      remove os temp_path;;;
      ret (jsonify (PDict [(u "text", PStr (strip (text result)))]))
  end.

Definition transcribe_audio (os : Os) (env : Env) (request : Request)
  : M Response :=
  try_except (transcribe_body os env request) derives_from_exception
    (fun e =>
       print_error os (u "Transcription error:") e;;;
       ret (jsonify_status (error_body (u "Transcription failed")) 500)).

(** ** [POST /detect_pest] *)

(** Lines 167 to 191: from the model's result to the response. *)
Definition normalize (os : Os) (env : Env) (file : FileStorage)
    (result : option GenerateContentResponse) : M Response :=
  let text := concatenate_text result in
  (if is_empty (strip text)
   then raise (mkExc ValueError (u "Empty response from model"))
   else ret tt);;;
  pest_data <-
    try_except
      (attempt os (OpJsonLoads text);;;
       pest_data <- lift (json_loads text);;
       log_pest_upload os env (filename file) (u "Detection OK");;;
       ret pest_data)
      (is_class JSONDecodeError)
      (fun _ =>
         let pest_data := fallback_record env text in
         log_pest_upload os env (filename file) (u "JSON parse fallback");;;
         ret pest_data);;
  attempt os (OpJsonify pest_data);;;
  ret (jsonify pest_data).

(** Lines 132 to 191: the temporary copy, the model call and the
    response. *)
Definition analyse (os : Os) (env : Env) (file : FileStorage) : M Response :=
  let image_bytes := stream file in
  img_path <- temporary_file os env (u ".jpg");;
  write_bytes os img_path image_bytes;;;
  image <- read_back os img_path;;
  lift (image_open env image);;;
  result <- call_generate env image;;
  remove os img_path;;;
  normalize os env file result.

Definition detect_pest_body (os : Os) (env : Env) (request : Request)
  : M Response :=
  match files_get (request_files request) (u "file") with
  | None => ret (jsonify_status (error_body (u "No file uploaded")) 400)
  | Some file =>
      if is_empty (filename file) then
        ret (jsonify_status (error_body (u "No file selected")) 400)
      else
        let image_bytes := stream file in
        rejected <-
          try_except
            (lift (image_open env image_bytes);;;
             lift (image_verify env image_bytes);;;
             ret None)
            (is_class UnidentifiedImageError)
            (fun _ =>
               ret (Some (jsonify_status
                            (error_body (u "Invalid or corrupted image file"))
                            400)));;
        match rejected with
        | Some response => ret response
        | None =>
            now <- datetime_now env;;
            let timestamp := strftime_compact now in
            let save_path :=
              os_path_join UPLOADS_DIR
                (timestamp ++ u "_" ++ replace_char 32 95 (filename file)) in
            save os save_path image_bytes;;;
            analyse os env file
        end
  end.

Definition detect_pest (os : Os) (env : Env) (request : Request)
  : M Response :=
  try_except (detect_pest_body os env request) derives_from_exception
    (fun e =>
       print_error os (u "Pest detection error:") e;;;
       log_pest_upload os env
         (match files_get (request_files request) (u "file") with
          | Some file => filename file
          | None => u "Unknown"
          end)
         (u "Error: " ++ exc_msg e);;;
       ret (jsonify_status (error_body (u "Pest detection failed")) 500)).

End Io.

(** ** Vocabulary of the properties over fallible operations *)

(** What holds of the outcome of a computation started in [w]. *)
Definition wp {A} (m : M A) (Q : Result A -> World -> Prop) (w : World)
  : Prop :=
  Q (fst (m w)) (snd (m w)).

(** The exception [open(path, mode)] raises, if it raises. *)
Definition open_outcome (os : Io.Os) (path : pystr) (mode : Io.OpenMode)
  : option Exc :=
  if Io.has_nul path then Some Io.embedded_null
  else os (Io.OpOpen path mode).

(** The exception [with open(path, 'wb') as out: out.write(data)] raises,
    if it raises. *)
Definition save_outcome (os : Io.Os) (path : pystr) (data : bytes)
  : option Exc :=
  match open_outcome os path Io.ModeWrite with
  | Some e => Some e
  | None => os (Io.OpWrite path data)
  end.

(** The exception the write of a line to a log raises, if it raises: at
    opening the file, at encoding the line, or at writing it. *)
Definition append_outcome (os : Io.Os) (path line : pystr) : option Exc :=
  match open_outcome os path Io.ModeAppend with
  | Some e => Some e
  | None =>
      match Io.encode_error line with
      | Some e => Some e
      | None => os (Io.OpWriteText path line)
      end
  end.

(** The exception [print(label, e)] raises, if it raises. *)
Definition print_outcome (os : Io.Os) (label : pystr) (e : Exc)
  : option Exc :=
  os (Io.OpPrint label (exc_msg e)).


Definition is_log_append (ev : Event) : bool :=
  match ev with
  | EvLogAppend _ _ => true
  | _ => false
  end.

(** The log appends of a trace, in order. *)
Fixpoint log_appends (evs : list Event) : list Event :=
  match evs with
  | [] => []
  | ev :: rest =>
      if is_log_append ev then ev :: log_appends rest else log_appends rest
  end.

(** The effects by which an [except] block reports an exception. *)
Definition is_report (ev : Event) : bool :=
  match ev with
  | EvPrint _ | EvLogAppend _ _ => true
  | _ => false
  end.


(** The [except] block of [chat], lines 79 to 81. *)
Definition print_error_then_log (os : Io.Os) (env : Env) (e : Exc)
  : M Response :=
  Io.print_error os (u "Chat error:") e;;;
  Io.log_chat_message os env (exc_msg e) (u "Chat generation failed");;;
  ret (jsonify_status (reply (u "Error processing your message.")) 500).

(** One record of [pest_uploads.txt], as an effect. *)
Definition pest_record (t : DateTime) (name status : pystr) : Event :=
  EvLogAppend pest_log (pest_log_line t name status).

(** A record of a request that went well, and one of a request that
    failed. *)
Definition success_record (request : Request) (ev : Event) : Prop :=
  exists t st,
    ev = pest_record t (logged_name request) st
    /\ (st = u "Detection OK" \/ st = u "JSON parse fallback").

Definition error_record (request : Request) (ev : Event) : Prop :=
  exists t e,
    ev = pest_record t (logged_name request) (u "Error: " ++ exc_msg e).

Module SampleOs.

Fixpoint drop_to_slash (s : pystr) : pystr :=
  match s with
  | [] => []
  | c :: r => if c =? 47 then s else drop_to_slash r
  end.

Fixpoint lstrip_slash (s : pystr) : pystr :=
  match s with
  | c :: r => if c =? 47 then lstrip_slash r else s
  | [] => []
  end.

(** [posixpath.dirname(path)] *)
Definition dirname (path : pystr) : pystr :=
  let head := drop_to_slash (rev path) in
  if forallb (N.eqb 47) head then rev head else rev (lstrip_slash head).

Definition no_such_file (path : pystr) : Exc :=
  mkExc FileNotFoundError
        (u "[Errno 2] No such file or directory: '" ++ path ++ u "'").

(** The directories there are: the working directory, the uploads
    directory that line 41 creates, and the one of temporary files. *)
Definition directories : list pystr := [[]; UPLOADS_DIR; u "/tmp"].

(** A file system in which a file is created only in a directory that
    exists, and a standard output encoded in UTF-8. *)
Definition posix : Io.Os :=
  fun op =>
    match op with
    | Io.OpOpen path Io.ModeRead => None
    | Io.OpOpen path _ =>
        if existsb (pystr_eqb (dirname path)) directories then None
        else Some (no_such_file path)
    | Io.OpPrint label text => Io.encode_error text
    | _ => None
    end.

Definition keyboard_interrupt : Exc :=
  mkExc (OtherException (u "KeyboardInterrupt")) [].

(** Collaborators whose completion provider is interrupted. *)
Definition interrupted_env : Env :=
  Sample.env (Raise keyboard_interrupt) (Raise Sample.connection_error)
             (Raise Sample.connection_error).

(** An error of the completion provider whose text holds a lone
    surrogate. *)
Definition garbled_error : Exc :=
  mkExc (OtherException (u "APIError")) (u "Bad response: " ++ [55357]).

Definition garbled_env : Env :=
  Sample.env (Raise garbled_error) (Raise Sample.connection_error)
             (Raise Sample.connection_error).

(** An upload whose file name names a directory that is not there. *)
Definition nested : FileStorage :=
  mkFile (u "sub/leaf.png") (Sample.png_signature ++ [x00; x01; x02]).

(** A chat message that is one lone surrogate. *)
Definition lone_surrogate : Request :=
  Sample.json_request (PDict [(u "message", PStr [55357])]).

End SampleOs.


(** * Properties *)

Arguments u : simpl never.
Arguments strip : simpl never.
Arguments json_loads : simpl never.
Arguments strftime_compact : simpl never.
Arguments strftime_log : simpl never.
Arguments os_path_join : simpl never.
Arguments replace_char : simpl never.
Arguments concatenate_text : simpl never.
Arguments log_pest_upload : simpl never.
Arguments log_chat_message : simpl never.

(** ** Whitespace and trimming *)

Lemma lstrip_nil_iff (s : pystr) :
  lstrip s = [] <-> forallb py_isspace s = true.
Proof.
  induction s as [|c r IH]; simpl; [tauto|].
  destruct (py_isspace c); simpl; [exact IH|].
  split; discriminate.
Qed.

Lemma lstrip_head (s : pystr) c r :
  lstrip s = c :: r -> py_isspace c = false.
Proof.
  induction s as [|a t IH]; simpl; [discriminate|].
  destruct (py_isspace a) eqn:Ha; [exact IH|].
  intros [= <- <-]. exact Ha.
Qed.

Lemma lstrip_suffix (s : pystr) : exists p, s = p ++ lstrip s.
Proof.
  induction s as [|a t [p Hp]]; simpl; [by exists []|].
  destruct (py_isspace a); [|by exists []].
  exists (a :: p). simpl. by f_equal.
Qed.

Lemma forallb_rev_eq {A} (f : A -> bool) (l : list A) :
  forallb f (rev l) = forallb f l.
Proof.
  induction l as [|a t IH]; simpl; [reflexivity|].
  rewrite forallb_app, IH. simpl. rewrite andb_true_r. apply andb_comm.
Qed.

(** The trimmed string is empty exactly when every character is
    whitespace (which includes the empty string). *)
Lemma strip_nil_iff (s : pystr) :
  strip s = [] <-> forallb py_isspace s = true.
Proof.
  unfold strip, rstrip. split.
  - intros H. apply (f_equal (@rev N)) in H. rewrite rev_involutive in H.
    simpl in H. apply lstrip_nil_iff in H. rewrite forallb_rev_eq in H.
    destruct (lstrip s) as [|c r] eqn:E.
    + by apply lstrip_nil_iff.
    + apply lstrip_head in E. simpl in H. rewrite E in H. discriminate.
  - intros H. apply lstrip_nil_iff in H. rewrite H. reflexivity.
Qed.

(** ** The decoder on blank text *)

Lemma isspace_range (c : N) :
  py_isspace c = true -> c <= 32 \/ 133 <= c <= 12288.
Proof.
  unfold py_isspace.
  rewrite !orb_true_iff, !andb_true_iff, !N.leb_le, !N.eqb_eq. lia.
Qed.

Lemma skip_ws_blank (s : pystr) :
  forallb py_isspace s = true -> forallb py_isspace (skip_ws s) = true.
Proof.
  induction s as [|c r IH]; simpl; [done|].
  intros [Hc Hr]%andb_true_iff.
  destruct (is_json_ws c); [by apply IH|].
  simpl. by rewrite Hc, Hr.
Qed.

Lemma skip_ws_head (s : pystr) c r :
  skip_ws s = c :: r -> is_json_ws c = false.
Proof.
  induction s as [|a t IH]; simpl; [discriminate|].
  destruct (is_json_ws a) eqn:Ha; [exact IH|].
  intros [= <- <-]. exact Ha.
Qed.

Lemma startswith_head_ne a p c r :
  a <> c -> startswith (a :: p) (c :: r) = false.
Proof. intros H. simpl. by apply N.eqb_neq in H as ->. Qed.

(** No JSON value begins with a whitespace character. *)
Lemma scan_once_blank f c r :
  py_isspace c = true -> scan_once (S f) (c :: r) = ScanError err_value.
Proof.
  intros Hc%isspace_range.
  assert (Hne : forall k, 32 < k < 133 -> (c =? k) = false)
    by (intros k Hk; apply N.eqb_neq; lia).
  simpl. rewrite !Hne by lia.
  unfold scan_constant.
  change (u "null") with (110 :: u "ull").
  change (u "true") with (116 :: u "rue").
  change (u "false") with (102 :: u "alse").
  change (u "NaN") with (78 :: u "aN").
  change (u "Infinity") with (73 :: u "nfinity").
  change (u "-Infinity") with (45 :: u "Infinity").
  rewrite (startswith_head_ne 110), (startswith_head_ne 116),
    (startswith_head_ne 102), (startswith_head_ne 78),
    (startswith_head_ne 73), (startswith_head_ne 45) by lia.
  unfold match_number, match_integer.
  rewrite (Hne 45), (Hne 48) by lia.
  replace (is_digit c) with false; [reflexivity|].
  symmetry. unfold is_digit. apply andb_false_iff.
  rewrite !N.leb_gt. lia.
Qed.

(** [json.loads] raises [JSONDecodeError] on text that is empty once
    trimmed. *)
Lemma json_loads_blank (s : pystr) :
  strip s = [] -> json_loads s = Raise (mkExc JSONDecodeError err_value).
Proof.
  intros H%strip_nil_iff. unfold json_loads.
  assert (Hbom : startswith [65279] s = false).
  { destruct s as [|c r]; [reflexivity|].
    simpl in H. apply andb_true_iff in H as [Hc%isspace_range _].
    apply startswith_head_ne. lia. }
  rewrite Hbom.
  pose proof (skip_ws_blank s H) as Hb.
  replace (2 * length s + 1)%nat with (S (2 * length s)) by lia.
  destruct (skip_ws s) as [|c r] eqn:E; [reflexivity|].
  simpl in Hb. apply andb_true_iff in Hb as [Hc _].
  by rewrite scan_once_blank.
Qed.

Lemma json_loads_ok_nonblank (s : pystr) v :
  json_loads s = Ok v -> strip s <> [].
Proof. intros H Hs. rewrite (json_loads_blank s Hs) in H. discriminate. Qed.

(** ** The decoder always answers *)

Lemma skip_ws_length (s : pystr) : (length (skip_ws s) <= length s)%nat.
Proof.
  induction s as [|c r IH]; simpl; [lia|].
  destruct (is_json_ws c); simpl; lia.
Qed.

Lemma skip_ws_cons_length (s : pystr) c r :
  skip_ws s = c :: r -> (S (length r) <= length s)%nat.
Proof.
  intros H. pose proof (skip_ws_length s) as Hl. rewrite H in Hl.
  exact Hl.
Qed.

(** A string literal is read up to its closing quote: what remains is
    shorter than what was given. *)
Lemma scanstring_length (n : nat) :
  forall s acc v r,
    (length s <= n)%nat ->
    scanstring s acc = Scanned v r -> (length r < length s)%nat.
Proof.
  induction n as [|n IH]; intros s acc v r Hn H.
  - destruct s; [discriminate H|simpl in Hn; lia].
  - destruct s as [|c rest]; [discriminate H|].
    simpl in Hn. simpl in H.
    repeat match type of H with
           | (if ?b then _ else _) = _ => destruct b
           | match ?x with _ => _ end = _ => destruct x
           | Scanned _ _ = Scanned _ _ => inversion H; subst; clear H
           | ScanError _ = _ => discriminate H
           end;
      try (simpl; lia);
      try (apply IH in H; simpl in *; lia).
Qed.

Lemma scanstring_no_depth (n : nat) :
  forall s acc, (length s <= n)%nat -> scanstring s acc <> ScanDepth.
Proof.
  induction n as [|n IH]; intros s acc Hn.
  - destruct s; [discriminate|simpl in Hn; lia].
  - destruct s as [|c rest]; [discriminate|].
    simpl in Hn. simpl.
    repeat match goal with
           | |- (if ?b then _ else _) <> _ => destruct b
           | |- match ?x with _ => _ end <> _ => destruct x
           end;
      try discriminate;
      apply IH; simpl in *; lia.
Qed.

Lemma take_digits_length (s : pystr) :
  (length (snd (take_digits s)) <= length s)%nat.
Proof.
  induction s as [|c r IH]; simpl; [lia|].
  destruct (is_digit c); simpl; [|lia].
  destruct (take_digits r) as [ds r']. simpl in *. lia.
Qed.

Lemma match_integer_length (s : pystr) ds r :
  match_integer s = Some (ds, r) -> (length r < length s)%nat.
Proof.
  unfold match_integer.
  destruct s as [|c t]; [discriminate|].
  destruct (c =? 45).
  - destruct t as [|c1 t1]; [discriminate|].
    destruct (c1 =? 48); [intros [= <- <-]; simpl; lia|].
    destruct (is_digit c1); [|discriminate].
    pose proof (take_digits_length t1) as Hl.
    destruct (take_digits t1) as [ds' r']. intros [= <- <-].
    simpl in *. lia.
  - destruct (c =? 48); [intros [= <- <-]; simpl; lia|].
    destruct (is_digit c); [|discriminate].
    pose proof (take_digits_length t) as Hl.
    destruct (take_digits t) as [ds' r']. intros [= <- <-].
    simpl in *. lia.
Qed.

Lemma match_frac_length (s : pystr) :
  (length (snd (match_frac s)) <= length s)%nat.
Proof.
  unfold match_frac. destruct s as [|c t]; simpl; [lia|].
  destruct (c =? 46); simpl; [|lia].
  pose proof (take_digits_length t) as Hl.
  destruct (take_digits t) as [[|d ds] r']; simpl in *; lia.
Qed.

Lemma match_exp_length (s : pystr) :
  (length (snd (match_exp s)) <= length s)%nat.
Proof.
  unfold match_exp. destruct s as [|c t]; simpl; [lia|].
  destruct ((c =? 101) || (c =? 69)); simpl; [|lia].
  destruct t as [|c1 t1]; simpl; [lia|].
  destruct ((c1 =? 45) || (c1 =? 43)).
  - pose proof (take_digits_length t1) as Hl.
    destruct (take_digits t1) as [[|d ds] r']; simpl in *; lia.
  - pose proof (take_digits_length (c1 :: t1)) as Hl.
    destruct (take_digits (c1 :: t1)) as [[|d ds] r']; simpl in *; lia.
Qed.

Lemma match_number_length (s : pystr) v r :
  match_number s = Some (v, r) -> (length r < length s)%nat.
Proof.
  unfold match_number.
  destruct (match_integer s) as [[integer r0]|] eqn:Hi; [|discriminate].
  apply match_integer_length in Hi.
  pose proof (match_frac_length r0) as Hf.
  destruct (match_frac r0) as [frac r1].
  pose proof (match_exp_length r1) as He.
  destruct (match_exp r1) as [exp r2]. simpl in *.
  destruct frac, exp; intros [= <- <-]; lia.
Qed.

Lemma startswith_length (p s : pystr) :
  startswith p s = true -> (length p <= length s)%nat.
Proof.
  revert s. induction p as [|a p IH]; intros s; simpl; [lia|].
  destruct s as [|b s]; [discriminate|].
  intros [_ H]%andb_true_iff. apply IH in H. simpl. lia.
Qed.

Ltac startswith_cases s :=
  repeat match goal with
         | |- (if startswith ?p s then _ else _) = _ -> _ =>
             let H := fresh "H" in
             destruct (startswith p s) eqn:H;
             [apply startswith_length in H;
              let k := eval vm_compute in (length p) in
              change (length p) with k in H;
              intros [= <- <-]; rewrite length_drop; lia
             |clear H]
         end.

Lemma scan_constant_length (s : pystr) v r :
  scan_constant s = Scanned v r -> (length r < length s)%nat.
Proof.
  unfold scan_constant. startswith_cases s.
  destruct (match_number s) as [[v' r']|] eqn:Hm.
  - intros [= <- <-]. by apply match_number_length in Hm.
  - startswith_cases s. discriminate.
Qed.

Lemma scan_constant_no_depth (s : pystr) : scan_constant s <> ScanDepth.
Proof.
  unfold scan_constant.
  repeat match goal with
         | |- (if ?b then _ else _) <> _ => destruct b
         | |- match ?x with _ => _ end <> _ => destruct x
         end; discriminate.
Qed.

(** Each scanner consumes at least one character of its input. *)
Lemma scan_progress (fuel : nat) :
  (forall s v r,
      scan_once fuel s = Scanned v r -> (length r < length s)%nat)
  /\ (forall values s v r,
         array_items fuel values s = Scanned v r ->
         (length r < length s)%nat)
  /\ (forall pairs s v r,
         object_items fuel pairs s = Scanned v r ->
         (length r < length s)%nat).
Proof.
  induction fuel as [|f (IHs & IHa & IHo)];
    [repeat split; intros; discriminate|].
  repeat split.
  - intros s v r H. destruct s as [|c rest]; [discriminate H|].
    simpl in H.
    destruct (c =? 34).
    { unfold scan_string_value in H.
      destruct (scanstring rest []) as [v' r'| |] eqn:E; try discriminate H.
      injection H as <- <-.
      apply (scanstring_length (length rest)) in E; simpl; lia. }
    destruct (c =? 123).
    { destruct (skip_ws rest) as [|c1 r1] eqn:E; [discriminate H|].
      apply skip_ws_cons_length in E.
      destruct (c1 =? 125); [injection H as <- <-; simpl; lia|].
      destruct (c1 =? 34); [|discriminate H].
      apply IHo in H. simpl. lia. }
    destruct (c =? 91).
    { destruct (skip_ws rest) as [|c1 r1] eqn:E.
      - apply IHa in H. simpl in H. lia.
      - pose proof (skip_ws_length rest) as Hl. rewrite E in Hl.
        destruct (c1 =? 93); [injection H as <- <-; simpl in *; lia|].
        apply IHa in H. simpl in *. lia. }
    by apply scan_constant_length in H.
  - intros values s v r H. simpl in H.
    destruct (scan_once f s) as [v0 r0| |] eqn:E0; try discriminate H.
    apply IHs in E0.
    destruct (skip_ws r0) as [|c r1] eqn:E1; [discriminate H|].
    apply skip_ws_cons_length in E1.
    destruct (c =? 93); [injection H as <- <-; lia|].
    destruct (c =? 44); [|discriminate H].
    apply IHa in H. pose proof (skip_ws_length r1). lia.
  - intros pairs s v r H. simpl in H.
    destruct (scanstring s []) as [key r0| |] eqn:E0; try discriminate H.
    apply (scanstring_length (length s)) in E0; [|lia].
    destruct (skip_ws r0) as [|c r1] eqn:E1; [discriminate H|].
    apply skip_ws_cons_length in E1.
    destruct (c =? 58); [|discriminate H].
    destruct (scan_once f (skip_ws r1)) as [v0 r2| |] eqn:E2;
      try discriminate H.
    apply IHs in E2. pose proof (skip_ws_length r1).
    destruct (skip_ws r2) as [|c2 r3] eqn:E3; [discriminate H|].
    apply skip_ws_cons_length in E3.
    destruct (c2 =? 125); [injection H as <- <-; lia|].
    destruct (c2 =? 44); [|discriminate H].
    destruct (skip_ws r3) as [|q r4] eqn:E4; [discriminate H|].
    apply skip_ws_cons_length in E4.
    destruct (q =? 34); [|discriminate H].
    apply IHo in H. lia.
Qed.

(** Fuel proportional to the length of the input is never used up. *)
Lemma scan_fuel_enough (fuel : nat) :
  (forall s, (2 * length s + 1 <= fuel)%nat -> scan_once fuel s <> ScanDepth)
  /\ (forall values s,
         (2 * length s + 2 <= fuel)%nat ->
         array_items fuel values s <> ScanDepth)
  /\ (forall pairs s,
         (2 * length s + 2 <= fuel)%nat ->
         object_items fuel pairs s <> ScanDepth).
Proof.
  induction fuel as [|f (IHs & IHa & IHo)]; [repeat split; intros; lia|].
  repeat split.
  - intros s Hf. destruct s as [|c rest]; [discriminate|].
    simpl in Hf. simpl.
    destruct (c =? 34).
    { unfold scan_string_value.
      pose proof (scanstring_no_depth (length rest) rest [] (le_n _)).
      by destruct (scanstring rest []). }
    destruct (c =? 123).
    { destruct (skip_ws rest) as [|c1 r1] eqn:E; [discriminate|].
      apply skip_ws_cons_length in E.
      destruct (c1 =? 125); [discriminate|].
      destruct (c1 =? 34); [|discriminate].
      apply IHo. lia. }
    destruct (c =? 91).
    { pose proof (skip_ws_length rest) as Hl.
      destruct (skip_ws rest) as [|c1 r1] eqn:E.
      - apply IHa. simpl. lia.
      - destruct (c1 =? 93); [discriminate|].
        apply IHa. simpl in *. lia. }
    apply scan_constant_no_depth.
  - intros values s Hf. simpl.
    pose proof (IHs s ltac:(lia)) as Hs.
    destruct (scan_once f s) as [v0 r0| |] eqn:E0; try done.
    apply (proj1 (scan_progress f)) in E0.
    destruct (skip_ws r0) as [|c r1] eqn:E1; [discriminate|].
    apply skip_ws_cons_length in E1.
    destruct (c =? 93); [discriminate|].
    destruct (c =? 44); [|discriminate].
    apply IHa. pose proof (skip_ws_length r1). lia.
  - intros pairs s Hf. simpl.
    pose proof (scanstring_no_depth (length s) s [] (le_n _)) as Hk.
    destruct (scanstring s []) as [key r0| |] eqn:E0; try done.
    apply (scanstring_length (length s)) in E0; [|lia].
    destruct (skip_ws r0) as [|c r1] eqn:E1; [discriminate|].
    apply skip_ws_cons_length in E1.
    destruct (c =? 58); [|discriminate].
    pose proof (skip_ws_length r1).
    pose proof (IHs (skip_ws r1) ltac:(lia)) as Hs.
    destruct (scan_once f (skip_ws r1)) as [v0 r2| |] eqn:E2; try done.
    apply (proj1 (scan_progress f)) in E2.
    destruct (skip_ws r2) as [|c2 r3] eqn:E3; [discriminate|].
    apply skip_ws_cons_length in E3.
    destruct (c2 =? 125); [discriminate|].
    destruct (c2 =? 44); [|discriminate].
    destruct (skip_ws r3) as [|q r4] eqn:E4; [discriminate|].
    apply skip_ws_cons_length in E4.
    destruct (q =? 34); [|discriminate].
    apply IHo. lia.
Qed.

(** [json.loads] either returns a value or raises [JSONDecodeError]. *)
Lemma json_loads_total (s : pystr) :
  (exists v, json_loads s = Ok v)
  \/ (exists m, json_loads s = Raise (mkExc JSONDecodeError m)).
Proof.
  unfold json_loads.
  destruct (startswith [65279] s); [right; by eexists|].
  pose proof (skip_ws_length s) as Hl.
  pose proof (proj1 (scan_fuel_enough (2 * length s + 1)) (skip_ws s)
                ltac:(lia)) as Hd.
  destruct (scan_once (2 * length s + 1) (skip_ws s)) as [v r|m|].
  - destruct (skip_ws r); [left|right]; by eexists.
  - right. by eexists.
  - done.
Qed.


(** ** Running [detect_pest] up to the model call *)

Lemma is_empty_false (s : pystr) : s <> [] -> is_empty s = false.
Proof. by destruct s. Qed.

Lemma detect_pest_body_decoded env request file w :
  decodable_upload env request file ->
  detect_pest_body env request w =
    match generate_content env (stream file) with
    | Ok result => normalize env file result (world_after_remove env w file)
    | Raise e => (Raise e, world_at_call env w file)
    end.
Proof.
  intros (Hfile & Hname & Hopen & Hverify).
  unfold detect_pest_body. rewrite Hfile, (is_empty_false _ Hname).
  unfold bind, try_except, lift, ret, datetime_now, write_file,
    named_temporary_file, read_file, call_generate, emit, os_remove.
  rewrite Hopen, Hverify. simpl.
  fold (archive_name env w file). fold (save_path env w file).
  fold (img_path env w).
  rewrite lookup_insert_eq, Hopen.
  unfold world_after_remove, world_at_call. simpl.
  rewrite <- !app_assoc. simpl.
  destruct (generate_content env (stream file)) as [result|e]; simpl.
  - rewrite lookup_insert_eq. reflexivity.
  - reflexivity.
Qed.

(** ** From the model's result to the response *)

Lemma log_pest_upload_run env name status w :
  log_pest_upload env name status w = (Ok tt, world_logged env w name status).
Proof.
  unfold log_pest_upload, log_event, bind, datetime_now, append_text,
    world_logged, pest_log_line, status_sep. simpl.
  rewrite <- !app_assoc. reflexivity.
Qed.

Lemma fallback_record_nonblank env text :
  strip text <> [] -> fallback_record env text = canonical_fallback (strip text).
Proof.
  intros H. unfold fallback_record, canonical_fallback, py_or. simpl.
  by destruct (strip text).
Qed.

Lemma normalize_blank env file result w :
  strip (concatenate_text result) = [] ->
  normalize env file result w = (Raise empty_response, w).
Proof.
  intros H. unfold normalize, bind, raise. rewrite H. reflexivity.
Qed.

Lemma normalize_parsed env file result w v :
  json_loads (concatenate_text result) = Ok v ->
  normalize env file result w =
    (Ok (jsonify v),
     world_logged env w (filename file) (u "Detection OK")).
Proof.
  intros H. pose proof (json_loads_ok_nonblank _ _ H) as Hne.
  unfold normalize, bind, try_except, lift, ret.
  rewrite (is_empty_false _ Hne), H. cbn.
  rewrite log_pest_upload_run. reflexivity.
Qed.

Lemma normalize_fallback env file result w e :
  strip (concatenate_text result) <> [] ->
  json_loads (concatenate_text result) = Raise e ->
  exc_class e = JSONDecodeError ->
  normalize env file result w =
    (Ok (jsonify (canonical_fallback (strip (concatenate_text result)))),
     world_logged env w (filename file) (u "JSON parse fallback")).
Proof.
  intros Hne H Hc.
  unfold normalize, bind, try_except, lift, ret, is_class.
  rewrite (is_empty_false _ Hne), H, Hc. cbn.
  rewrite log_pest_upload_run, (fallback_record_nonblank _ _ Hne).
  reflexivity.
Qed.

Lemma normalize_other_error env file result w e :
  strip (concatenate_text result) <> [] ->
  json_loads (concatenate_text result) = Raise e ->
  exc_class e <> JSONDecodeError ->
  normalize env file result w = (Raise e, w).
Proof.
  intros Hne H Hc.
  unfold normalize, bind, try_except, lift, ret, is_class.
  rewrite (is_empty_false _ Hne), H. cbn.
  destruct (exc_class e); try reflexivity. congruence.
Qed.

(** ** The endpoint-level handler of [detect_pest] *)

Lemma detect_pest_of_body env request w :
  detect_pest env request w =
    match detect_pest_body env request w with
    | (Ok r, w') => (Ok r, w')
    | (Raise e, w') => (Ok pest_failed, world_pest_failed env request w' e)
    end.
Proof.
  unfold detect_pest, try_except, any_exception.
  destruct (detect_pest_body env request w) as [[r|e] w']; [reflexivity|].
  unfold bind, print, emit, ret. cbn.
  fold (logged_name request). rewrite log_pest_upload_run. reflexivity.
Qed.

(** ** [/detect_pest]: the parse-fallback path *)

(** C1. With a decodable image, when the text gathered from the model is
    not blank and [json.loads] raises [JSONDecodeError] on it, the handler
    answers 200 with the canonical fallback record whose description is
    the trimmed text, and appends a line with status
    [JSON parse fallback] to [pest_uploads.txt]. *)
Theorem detect_pest_json_decode_error_gives_fallback
    env request file w result e :
  decodable_upload env request file ->
  generate_content env (stream file) = Ok result ->
  strip (concatenate_text result) <> [] ->
  json_loads (concatenate_text result) = Raise e ->
  exc_class e = JSONDecodeError ->
  fst (detect_pest env request w)
    = Ok (mkResponse
            (canonical_fallback (strip (concatenate_text result))) 200)
  /\ logs (snd (detect_pest env request w)) !! pest_log
     = Some (default [] (logs w !! pest_log)
               ++ pest_log_line (clock env (S (ticks w))) (filename file)
                                (u "JSON parse fallback")).
Proof.
  intros Hdec Hgen Hne Hjson Hclass.
  rewrite detect_pest_of_body, (detect_pest_body_decoded _ _ _ _ Hdec), Hgen.
  rewrite (normalize_fallback _ _ _ _ e Hne Hjson Hclass). cbn.
  split; [reflexivity|]. by rewrite lookup_insert_eq.
Qed.

(** The example of the specification: the model answers [not json at all]. *)
Lemma detect_pest_not_json_at_all :
  let env := Sample.vision_env [u "not json at all"] in
  let run := detect_pest env (Sample.upload Sample.leaf) Sample.world0 in
  fst run = Ok (mkResponse (canonical_fallback (u "not json at all")) 200)
  /\ logs (snd run) !! pest_log
     = Some (u "[2025-01-15 10:30:01] Pest: leaf photo.png | Status: JSON parse fallback"
               ++ [10]).
Proof.
  cbv zeta.
  apply (detect_pest_json_decode_error_gives_fallback
           (Sample.vision_env [u "not json at all"])
           (Sample.upload Sample.leaf) Sample.leaf Sample.world0
           (Sample.result_of_parts [u "not json at all"])
           (mkExc JSONDecodeError err_value)).
  - repeat split; try (vm_compute; reflexivity). vm_compute. discriminate.
  - reflexivity.
  - vm_compute. discriminate.
  - vm_compute. reflexivity.
  - reflexivity.
Defined.

(** ** [/detect_pest]: the early exits *)

Lemma image_check_ok env request file :
  files_get (request_files request) (u "file") = Some file ->
  filename file <> [] ->
  image_check env (stream file) = Ok tt ->
  decodable_upload env request file.
Proof.
  unfold image_check, decodable_upload. intros Hf Hn Hc.
  destruct (image_open env (stream file)) as [[]|e]; [|discriminate].
  done.
Qed.

Lemma is_class_true c e : is_class c e = true <-> exc_class e = c.
Proof.
  unfold is_class. split.
  - destruct c, (exc_class e); simpl; try discriminate; try reflexivity.
    intros H. f_equal. revert name0 H.
    induction name as [|a n IH]; intros [|b m]; simpl; try discriminate;
      [reflexivity|].
    intros [Hab%N.eqb_eq Hnm]%andb_true_iff. f_equal; [done|by apply IH].
  - intros ->. destruct c; simpl; try reflexivity.
    induction name as [|a n IH]; simpl; [reflexivity|].
    by rewrite N.eqb_refl, IH.
Qed.

Lemma detect_pest_body_no_file env request w :
  files_get (request_files request) (u "file") = None ->
  detect_pest_body env request w = (Ok no_file_uploaded, w).
Proof. intros H. unfold detect_pest_body. by rewrite H. Qed.

Lemma detect_pest_body_no_name env request file w :
  files_get (request_files request) (u "file") = Some file ->
  filename file = [] ->
  detect_pest_body env request w = (Ok no_file_selected, w).
Proof. intros H Hn. unfold detect_pest_body. by rewrite H, Hn. Qed.

Lemma detect_pest_body_check_raises env request file w e :
  files_get (request_files request) (u "file") = Some file ->
  filename file <> [] ->
  image_check env (stream file) = Raise e ->
  detect_pest_body env request w =
    if is_class UnidentifiedImageError e then (Ok invalid_image, w)
    else (Raise e, w).
Proof.
  intros Hf Hn Hc. unfold detect_pest_body.
  rewrite Hf, (is_empty_false _ Hn).
  unfold bind, try_except, lift, ret. unfold image_check in Hc.
  destruct (image_open env (stream file)) as [[]|e1].
  - rewrite Hc. by destruct (is_class UnidentifiedImageError e).
  - injection Hc as ->. by destruct (is_class UnidentifiedImageError e).
Qed.

(** When [Image.open] or [verify] raises [UnidentifiedImageError] on the
    bytes of the upload (present, with a file name), the handler answers
    400 with the fixed body and leaves the world as it was: nothing is
    written to the archive directory, the vision client is not called. *)
Theorem detect_pest_undecodable_image_rejected env request file w e :
  files_get (request_files request) (u "file") = Some file ->
  filename file <> [] ->
  image_check env (stream file) = Raise e ->
  exc_class e = UnidentifiedImageError ->
  fst (detect_pest env request w)
    = Ok (mkResponse (error_body (u "Invalid or corrupted image file")) 400)
  /\ snd (detect_pest env request w) = w.
Proof.
  intros Hf Hn Hc He.
  rewrite detect_pest_of_body,
    (detect_pest_body_check_raises _ _ _ _ _ Hf Hn Hc).
  apply is_class_true in He. rewrite He. split; reflexivity.
Qed.

Lemma detect_pest_garbage_upload :
  fst (detect_pest Sample.offline_env (Sample.upload Sample.garbage)
                   Sample.world0)
    = Ok (mkResponse (error_body (u "Invalid or corrupted image file")) 400)
  /\ snd (detect_pest Sample.offline_env (Sample.upload Sample.garbage)
                      Sample.world0)
     = Sample.world0.
Proof.
  apply (detect_pest_undecodable_image_rejected
           Sample.offline_env (Sample.upload Sample.garbage) Sample.garbage
           Sample.world0
           (mkExc UnidentifiedImageError (u "cannot identify image file")));
    try reflexivity.
  vm_compute. discriminate.
Defined.

(** ** [/detect_pest]: parsed output and empty output *)

(** C3. With a decodable image, when [json.loads] accepts the text gathered
    from the model, the handler answers 200 with the parsed value itself,
    whatever it is (so also when it has the shape of a pest-detection
    record), and appends a line with status [Detection OK] to
    [pest_uploads.txt]. *)
Theorem detect_pest_valid_json_returned_unchanged
    env request file w result v :
  decodable_upload env request file ->
  generate_content env (stream file) = Ok result ->
  json_loads (concatenate_text result) = Ok v ->
  fst (detect_pest env request w) = Ok (mkResponse v 200)
  /\ logs (snd (detect_pest env request w)) !! pest_log
     = Some (default [] (logs w !! pest_log)
               ++ pest_log_line (clock env (S (ticks w))) (filename file)
                                (u "Detection OK")).
Proof.
  intros Hdec Hgen Hjson.
  rewrite detect_pest_of_body, (detect_pest_body_decoded _ _ _ _ Hdec), Hgen.
  rewrite (normalize_parsed _ _ _ _ v Hjson). cbn.
  split; [reflexivity|]. by rewrite lookup_insert_eq.
Qed.

(** C4. With a decodable image, when the text gathered from the model is
    empty or only whitespace, the handler answers 500 with the fixed body
    (so not a 200 fallback) and logs the error. *)
Theorem detect_pest_blank_output_fails env request file w result :
  decodable_upload env request file ->
  generate_content env (stream file) = Ok result ->
  strip (concatenate_text result) = [] ->
  fst (detect_pest env request w)
    = Ok (mkResponse (error_body (u "Pest detection failed")) 500)
  /\ logs (snd (detect_pest env request w)) !! pest_log
     = Some (default [] (logs w !! pest_log)
               ++ pest_log_line (clock env (S (ticks w))) (filename file)
                                (u "Error: Empty response from model")).
Proof.
  intros Hdec Hgen Hblank.
  rewrite detect_pest_of_body, (detect_pest_body_decoded _ _ _ _ Hdec), Hgen.
  rewrite (normalize_blank _ _ _ _ Hblank).
  destruct Hdec as (Hf & _).
  unfold world_pest_failed, logged_name. rewrite Hf. cbn.
  split; [reflexivity|]. by rewrite lookup_insert_eq.
Qed.

Lemma detect_pest_aphid_answer :
  let env := Sample.vision_env SampleJson.aphid_parts in
  let run := detect_pest env (Sample.upload Sample.leaf) Sample.world0 in
  fst run = Ok (mkResponse SampleJson.aphid_record 200)
  /\ logs (snd run) !! pest_log
     = Some (u "[2025-01-15 10:30:01] Pest: leaf photo.png | Status: Detection OK"
               ++ [10]).
Proof.
  cbv zeta.
  apply (detect_pest_valid_json_returned_unchanged
           (Sample.vision_env SampleJson.aphid_parts)
           (Sample.upload Sample.leaf) Sample.leaf Sample.world0
           (Sample.result_of_parts SampleJson.aphid_parts)
           SampleJson.aphid_record).
  - repeat split; try (vm_compute; reflexivity). vm_compute. discriminate.
  - reflexivity.
  - vm_compute. reflexivity.
Defined.

Lemma detect_pest_whitespace_answer :
  let env := Sample.vision_env [[32]; [10; 9]; []] in
  let run := detect_pest env (Sample.upload Sample.leaf) Sample.world0 in
  fst run = Ok (mkResponse (error_body (u "Pest detection failed")) 500)
  /\ logs (snd run) !! pest_log
     = Some (u "[2025-01-15 10:30:01] Pest: leaf photo.png | Status: Error: Empty response from model"
               ++ [10]).
Proof.
  cbv zeta.
  apply (detect_pest_blank_output_fails
           (Sample.vision_env [[32]; [10; 9]; []])
           (Sample.upload Sample.leaf) Sample.leaf Sample.world0
           (Sample.result_of_parts [[32]; [10; 9]; []])).
  - repeat split; try (vm_compute; reflexivity). vm_compute. discriminate.
  - reflexivity.
  - vm_compute. reflexivity.
Defined.

(** ** [/detect_pest]: archival *)

Lemma digits_fuel_head fuel n acc :
  exists c r, digits_fuel (S fuel) n acc = c :: r /\ 48 <= c.
Proof.
  revert n acc. induction fuel as [|f IH]; intros n acc.
  - exists (48 + n mod 10), acc. split; [|apply N.le_add_r].
    simpl. by destruct (n / 10 =? 0).
  - change (digits_fuel (S (S f)) n acc)
      with (if n / 10 =? 0 then (48 + n mod 10) :: acc
            else digits_fuel (S f) (n / 10) ((48 + n mod 10) :: acc)).
    destruct (n / 10 =? 0); [|apply IH].
    eexists _, _; split; [reflexivity|apply N.le_add_r].
Qed.

Lemma zpad_head width n : exists c r, zpad width n = c :: r /\ 48 <= c.
Proof.
  unfold zpad, digits.
  destruct (digits_fuel_head (N.to_nat n) n []) as (c & r & -> & Hc).
  destruct (width - length (c :: r))%nat as [|k]; simpl.
  - by exists c, r.
  - eexists _, _; split; [reflexivity|lia].
Qed.

Lemma strftime_compact_head t :
  exists c r, strftime_compact t = c :: r /\ 48 <= c.
Proof.
  unfold strftime_compact.
  destruct (zpad_head 4 (year t)) as (c & r & -> & Hc).
  simpl. by eexists _, _.
Qed.

(** The archive path lies in the uploads directory. *)
Lemma save_path_in_uploads env w file :
  save_path env w file = u "uploaded_images/" ++ archive_name env w file.
Proof.
  unfold save_path, archive_name.
  destruct (strftime_compact_head (clock env (ticks w)))
    as (c & r & -> & Hc).
  unfold os_path_join. change (u "/") with [47].
  rewrite <- app_comm_cons.
  rewrite (startswith_head_ne 47 [] c) by lia.
  change (endswith_char 47 UPLOADS_DIR) with false.
  reflexivity.
Qed.

(** Past the model call the handler only adds to the trace. *)
Lemma normalize_events env file result w :
  exists more,
    events (snd (normalize env file result w)) = events w ++ more.
Proof.
  destruct (is_empty (strip (concatenate_text result))) eqn:Hblank.
  - exists []. unfold normalize, bind, raise. rewrite Hblank. cbn.
    by rewrite app_nil_r.
  - unfold normalize, bind, try_except, lift, ret. rewrite Hblank.
    destruct (json_loads (concatenate_text result)) as [v|e];
      [|destruct (is_class JSONDecodeError e)]; cbn.
    + rewrite log_pest_upload_run. cbn. eexists; reflexivity.
    + rewrite log_pest_upload_run. cbn. eexists; reflexivity.
    + exists []. by rewrite app_nil_r.
Qed.

(** ** [/detect_pest]: what a 200 response holds *)

Lemma canonical_fallback_shape description :
  is_pest_detection_result (canonical_fallback description) = true.
Proof. reflexivity. Qed.

(** Every way [detect_pest] answers 200. *)
Lemma detect_pest_ok_inv env request w r w' :
  detect_pest env request w = (Ok r, w') ->
  status r = 200 ->
  exists file result,
    decodable_upload env request file
    /\ generate_content env (stream file) = Ok result
    /\ strip (concatenate_text result) <> []
    /\ (json_loads (concatenate_text result) = Ok (body r)
        \/ exists e,
             json_loads (concatenate_text result) = Raise e
             /\ exc_class e = JSONDecodeError
             /\ body r = canonical_fallback (strip (concatenate_text result))).
Proof.
  intros Hrun Hst. rewrite detect_pest_of_body in Hrun.
  destruct (files_get (request_files request) (u "file")) as [file|] eqn:Hf.
  2: { rewrite (detect_pest_body_no_file _ _ _ Hf) in Hrun.
       injection Hrun as <- <-. discriminate Hst. }
  destruct (decide (filename file = [])) as [Hn|Hn].
  { rewrite (detect_pest_body_no_name _ _ _ _ Hf Hn) in Hrun.
    injection Hrun as <- <-. discriminate Hst. }
  destruct (image_check env (stream file)) as [[]|e] eqn:Hc.
  2: { rewrite (detect_pest_body_check_raises _ _ _ _ _ Hf Hn Hc) in Hrun.
       destruct (is_class UnidentifiedImageError e);
         injection Hrun as <- <-; discriminate Hst. }
  pose proof (image_check_ok _ _ _ Hf Hn Hc) as Hdec.
  rewrite (detect_pest_body_decoded _ _ _ _ Hdec) in Hrun.
  destruct (generate_content env (stream file)) as [result|e] eqn:Hgen.
  2: { injection Hrun as <- <-. discriminate Hst. }
  exists file, result. split; [done|]. split; [done|].
  destruct (decide (strip (concatenate_text result) = [])) as [Hb|Hb].
  { rewrite (normalize_blank _ _ _ _ Hb) in Hrun.
    injection Hrun as <- <-. discriminate Hst. }
  split; [done|].
  destruct (json_loads (concatenate_text result)) as [v|e] eqn:Hj.
  - rewrite (normalize_parsed _ _ _ _ v Hj) in Hrun.
    injection Hrun as <- <-. by left.
  - destruct (is_class JSONDecodeError e) eqn:Hcls.
    + apply is_class_true in Hcls.
      rewrite (normalize_fallback _ _ _ _ e Hb Hj Hcls) in Hrun.
      injection Hrun as <- <-. right. by exists e.
    + assert (exc_class e <> JSONDecodeError) as Hne.
      { intros Heq%is_class_true. congruence. }
      rewrite (normalize_other_error _ _ _ _ e Hb Hj Hne) in Hrun.
      injection Hrun as <- <-. discriminate Hst.
Qed.

(** C2, as the code has it.  A 200 answer of [/detect_pest] is either the
    value [json.loads] returned for the model's text, passed on as parsed,
    or, when [json.loads] raised [JSONDecodeError], the canonical fallback
    record, which has all seven fields populated. *)
Theorem detect_pest_ok_is_parsed_value_or_fallback env request w r w' :
  detect_pest env request w = (Ok r, w') ->
  status r = 200 ->
  exists file result,
    decodable_upload env request file
    /\ generate_content env (stream file) = Ok result
    /\ (json_loads (concatenate_text result) = Ok (body r)
        \/ (exists e,
              json_loads (concatenate_text result) = Raise e
              /\ exc_class e = JSONDecodeError)
           /\ body r = canonical_fallback (strip (concatenate_text result))
           /\ is_pest_detection_result (body r) = true).
Proof.
  intros Hrun Hst.
  destruct (detect_pest_ok_inv _ _ _ _ _ Hrun Hst)
    as (file & result & Hdec & Hgen & _ & [Hok|(e & Hj & Hc & Hb)]).
  - exists file, result. auto.
  - exists file, result. split; [done|]. split; [done|]. right.
    split; [by exists e|]. split; [done|].
    rewrite Hb. apply canonical_fallback_shape.
Qed.

(** The model answers with an empty JSON object: the handler passes it on
    with status 200, although none of the seven fields is there and the
    fallback record is not produced. *)
Lemma detect_pest_empty_object_passed_on :
  let env := Sample.vision_env [u "{}"] in
  let run := detect_pest env (Sample.upload Sample.leaf) Sample.world0 in
  json_loads (u "{}") = Ok (PDict [])
  /\ fst run = Ok (mkResponse (PDict []) 200)
  /\ is_pest_detection_result (PDict []) = false
  /\ PDict [] <> canonical_fallback (u "{}").
Proof.
  cbv zeta. repeat split; try (vm_compute; reflexivity). discriminate.
Qed.

Lemma detect_pest_empty_object_characterised :
  exists file result,
    decodable_upload (Sample.vision_env [u "{}"])
                     (Sample.upload Sample.leaf) file
    /\ generate_content (Sample.vision_env [u "{}"]) (stream file) = Ok result
    /\ (json_loads (concatenate_text result) = Ok (PDict [])
        \/ (exists e,
              json_loads (concatenate_text result) = Raise e
              /\ exc_class e = JSONDecodeError)
           /\ PDict [] = canonical_fallback (strip (concatenate_text result))
           /\ is_pest_detection_result (PDict []) = true).
Proof.
  apply (detect_pest_ok_is_parsed_value_or_fallback
           (Sample.vision_env [u "{}"]) (Sample.upload Sample.leaf)
           Sample.world0 (mkResponse (PDict []) 200)
           (snd (detect_pest (Sample.vision_env [u "{}"])
                             (Sample.upload Sample.leaf) Sample.world0))).
  - vm_compute. reflexivity.
  - reflexivity.
Defined.

(** ** [/detect_pest]: the description of the fallback record *)

(** C10. Whenever [/detect_pest] answers 200 after [json.loads] raised on
    the model's text, that text is not blank, so the record built in the
    [except] block carries the trimmed text as its description: the [or]
    of line 183 never falls through to its fixed default string. *)
Theorem detect_pest_fallback_description_is_trimmed_text
    env request file result w r w' e :
  files_get (request_files request) (u "file") = Some file ->
  generate_content env (stream file) = Ok result ->
  json_loads (concatenate_text result) = Raise e ->
  detect_pest env request w = (Ok r, w') ->
  status r = 200 ->
  strip (concatenate_text result) <> []
  /\ body r = fallback_record env (concatenate_text result)
  /\ description_of (body r) = Some (PStr (strip (concatenate_text result)))
  /\ py_or env (PStr (strip (concatenate_text result)))
           (PStr (u "Unable to parse model output."))
     = PStr (strip (concatenate_text result)).
Proof.
  intros Hf Hgen Hj Hrun Hst.
  destruct (detect_pest_ok_inv _ _ _ _ _ Hrun Hst)
    as (file' & result' & (Hf' & _) & Hgen' & Hne & Hcases).
  assert (file' = file) as -> by congruence.
  assert (result' = result) as -> by congruence.
  destruct Hcases as [Hok|(e' & _ & _ & Hb)]; [congruence|].
  split; [done|]. rewrite (fallback_record_nonblank _ _ Hne).
  split; [done|]. rewrite Hb. split; [reflexivity|].
  unfold py_or. cbn. by destruct (strip (concatenate_text result)).
Qed.

Lemma detect_pest_prose_answer :
  let text := [32; 10] ++ u "The leaf looks healthy." ++ [10] in
  let env := Sample.vision_env [text] in
  let run := detect_pest env (Sample.upload Sample.leaf) Sample.world0 in
  strip (concatenate_text (Sample.result_of_parts [text])) <> []
  /\ body (mkResponse (canonical_fallback (u "The leaf looks healthy.")) 200)
     = fallback_record env (concatenate_text (Sample.result_of_parts [text]))
  /\ description_of
       (body (mkResponse (canonical_fallback (u "The leaf looks healthy.")) 200))
     = Some (PStr (strip (concatenate_text (Sample.result_of_parts [text]))))
  /\ py_or env (PStr (strip (concatenate_text (Sample.result_of_parts [text]))))
           (PStr (u "Unable to parse model output."))
     = PStr (strip (concatenate_text (Sample.result_of_parts [text]))).
Proof.
  cbv zeta.
  apply (detect_pest_fallback_description_is_trimmed_text
           (Sample.vision_env [[32; 10] ++ u "The leaf looks healthy." ++ [10]])
           (Sample.upload Sample.leaf) Sample.leaf
           (Sample.result_of_parts
              [[32; 10] ++ u "The leaf looks healthy." ++ [10]])
           Sample.world0
           (mkResponse (canonical_fallback (u "The leaf looks healthy.")) 200)
           (snd (detect_pest
                   (Sample.vision_env
                      [[32; 10] ++ u "The leaf looks healthy." ++ [10]])
                   (Sample.upload Sample.leaf) Sample.world0))
           (mkExc JSONDecodeError err_value)).
  - reflexivity.
  - reflexivity.
  - vm_compute. reflexivity.
  - vm_compute. reflexivity.
  - reflexivity.
Defined.

(** ** [/chat] *)

Lemma log_chat_message_run env message status w :
  log_chat_message env message status w
    = (Ok tt, world_chat_logged env w message status).
Proof.
  unfold log_chat_message, log_event, bind, datetime_now, append_text,
    world_chat_logged, chat_log_line, status_sep. simpl.
  rewrite <- !app_assoc. reflexivity.
Qed.

Lemma chat_of_body env request w :
  chat env request w =
    match chat_body env request w with
    | (Ok r, w') => (Ok r, w')
    | (Raise e, w') => (Ok chat_failed, world_chat_failed env w' e)
    end.
Proof.
  unfold chat, try_except, any_exception.
  destruct (chat_body env request w) as [[r|e] w']; [reflexivity|].
  unfold bind, print, emit, ret. cbn.
  rewrite log_chat_message_run. reflexivity.
Qed.

Lemma chat_body_message env request w message :
  chat_message request message ->
  chat_body env request w =
    if is_empty message then
      (Ok (mkResponse (reply (u "Please enter a valid message.")) 400), w)
    else
      (response <- call_chat env message;;
       choice <- lift (match choices response with
                       | c :: _ => Ok c
                       | [] => Raise (mkExc IndexError
                                            (u "list index out of range"))
                       end);;
       (log_chat_message env message (u "Response OK");;;
        ret (jsonify (PDict [(u "reply",
                              match message_content choice with
                              | Some s => PStr s
                              | None => PNone
                              end)])))) w.
Proof.
  intros (d & s & Hj & Hm & Hs).
  unfold chat_body. unfold bind at 1. unfold lift at 1. rewrite Hj.
  unfold bind at 1. unfold lift at 1. unfold method_get. rewrite Hm.
  unfold bind at 1. unfold lift at 1.
  change (default PNone (Some (PStr s))) with (PStr s).
  assert (method_strip (py_or env (PStr s) (PStr [])) = Ok message) as ->.
  { unfold py_or. destruct s as [|c t]; cbn; [|by rewrite Hs].
    by rewrite <- Hs. }
  destruct (is_empty message); reflexivity.
Qed.

(** C7. When the message of a chat request is empty or only whitespace
    (its trimmed text is empty), the handler answers 400 with the fixed
    reply and leaves the world as it was: the text-completion client is
    not called. *)
Theorem chat_blank_message_rejected env request w :
  chat_message request [] ->
  fst (chat env request w)
    = Ok (mkResponse (reply (u "Please enter a valid message.")) 400)
  /\ snd (chat env request w) = w.
Proof.
  intros Hm. rewrite chat_of_body, (chat_body_message _ _ _ _ Hm).
  split; reflexivity.
Qed.

Lemma chat_whitespace_message :
  let request :=
    Sample.json_request (PDict [(u "message", PStr [32; 9; 10; 12288])]) in
  fst (chat Sample.offline_env request Sample.world0)
    = Ok (mkResponse (reply (u "Please enter a valid message.")) 400)
  /\ snd (chat Sample.offline_env request Sample.world0) = Sample.world0.
Proof.
  cbv zeta. apply chat_blank_message_rejected.
  eexists _, _. repeat split; vm_compute; reflexivity.
Defined.

Lemma chat_body_provider_raises env request w message e :
  chat_message request message ->
  message <> [] ->
  chat_completions_create env message = Raise e ->
  chat_body env request w
    = (Raise e,
       mkWorld (files w) (logs w) (ticks w) (temps w)
               (events w ++ [EvChatCompletion message])).
Proof.
  intros Hm Hne He. rewrite (chat_body_message _ _ _ _ Hm).
  rewrite (is_empty_false _ Hne).
  unfold bind, call_chat, emit, lift. cbn. by rewrite He.
Qed.

Lemma chat_body_no_choice env request w message :
  chat_message request message ->
  message <> [] ->
  chat_completions_create env message = Ok (mkCompletion []) ->
  chat_body env request w
    = (Raise (mkExc IndexError (u "list index out of range")),
       mkWorld (files w) (logs w) (ticks w) (temps w)
               (events w ++ [EvChatCompletion message])).
Proof.
  intros Hm Hne He. rewrite (chat_body_message _ _ _ _ Hm).
  rewrite (is_empty_false _ Hne).
  unfold bind, call_chat, emit, lift. cbn. by rewrite He.
Qed.

(** ** [/transcribe] *)

Lemma transcribe_of_body env request w :
  transcribe_audio env request w =
    match transcribe_body env request w with
    | (Ok r, w') => (Ok r, w')
    | (Raise e, w') =>
        (Ok transcription_failed,
         world_printed w' (u "Transcription error:") e)
    end.
Proof.
  unfold transcribe_audio, try_except, any_exception.
  by destruct (transcribe_body env request w) as [[r|e] w'].
Qed.

Lemma transcribe_body_uploaded env request file w :
  files_get (request_files request) (u "file") = Some file ->
  transcribe_body env request w =
    match transcriptions_create env (stream file) with
    | Ok result =>
        (Ok (jsonify (PDict [(u "text", PStr (strip (text result)))])),
         world_after_transcription env w file)
    | Raise e => (Raise e, world_at_transcription env w file)
    end.
Proof.
  intros Hf. unfold transcribe_body. rewrite Hf.
  unfold bind, ret, lift, named_temporary_file, write_file, read_file,
    call_transcription, emit, os_remove. simpl.
  fold (webm_path env w). rewrite lookup_insert_eq.
  unfold world_after_transcription, world_at_transcription. simpl.
  rewrite <- !app_assoc. simpl.
  destruct (transcriptions_create env (stream file)) as [result|e]; simpl.
  - rewrite lookup_insert_eq. reflexivity.
  - reflexivity.
Qed.

(** ** Temporary files *)

(** The handlers past the model call leave the binary files alone. *)
Lemma normalize_files env file result w :
  files (snd (normalize env file result w)) = files w.
Proof.
  destruct (is_empty (strip (concatenate_text result))) eqn:Hblank.
  - unfold normalize, bind, raise. by rewrite Hblank.
  - unfold normalize, bind, try_except, lift, ret. rewrite Hblank.
    destruct (json_loads (concatenate_text result)) as [v|e];
      [|destruct (is_class JSONDecodeError e)]; cbn;
      try rewrite log_pest_upload_run; reflexivity.
Qed.

Lemma detect_pest_files_of_body env request w :
  files (snd (detect_pest env request w))
    = files (snd (detect_pest_body env request w)).
Proof.
  rewrite detect_pest_of_body.
  by destruct (detect_pest_body env request w) as [[r|e] w'].
Qed.

(** When the vision model returns, whatever becomes of its answer, the
    temporary image is gone once the request completes. *)
Lemma detect_pest_temp_removed_when_model_returns
    env request file w result :
  decodable_upload env request file ->
  generate_content env (stream file) = Ok result ->
  files (snd (detect_pest env request w)) !! img_path env w = None.
Proof.
  intros Hdec Hgen.
  rewrite detect_pest_files_of_body,
    (detect_pest_body_decoded _ _ _ _ Hdec), Hgen, normalize_files.
  apply lookup_delete_eq.
Qed.

(** When the vision model raises, the temporary image stays on disk. *)
Lemma detect_pest_temp_left_when_model_raises env request file w e :
  decodable_upload env request file ->
  generate_content env (stream file) = Raise e ->
  files (snd (detect_pest env request w)) !! img_path env w
    = Some (stream file).
Proof.
  intros Hdec Hgen.
  rewrite detect_pest_files_of_body,
    (detect_pest_body_decoded _ _ _ _ Hdec), Hgen.
  apply lookup_insert_eq.
Qed.

(** When the transcription provider returns, the temporary audio file is
    gone once the request completes. *)
Lemma transcribe_temp_removed_when_provider_returns
    env request file w result :
  files_get (request_files request) (u "file") = Some file ->
  transcriptions_create env (stream file) = Ok result ->
  files (snd (transcribe_audio env request w)) !! webm_path env w = None.
Proof.
  intros Hf Hres.
  rewrite transcribe_of_body, (transcribe_body_uploaded _ _ _ _ Hf), Hres.
  apply lookup_delete_eq.
Qed.

(** When the transcription provider raises, the temporary audio file
    stays on disk. *)
Lemma transcribe_temp_left_when_provider_raises env request file w e :
  files_get (request_files request) (u "file") = Some file ->
  transcriptions_create env (stream file) = Raise e ->
  files (snd (transcribe_audio env request w)) !! webm_path env w
    = Some (stream file).
Proof.
  intros Hf Hres.
  rewrite transcribe_of_body, (transcribe_body_uploaded _ _ _ _ Hf), Hres.
  apply lookup_insert_eq.
Qed.

(** C6, at a failing input.  The providers are unreachable: [/transcribe]
    and [/detect_pest] answer 500 and the temporary file each created is
    still on disk, holding the upload, when the request completes. *)
Theorem temp_files_left_when_provider_unreachable :
  let audio := transcribe_audio Sample.offline_env
                 (Sample.upload SampleAudio.voice) Sample.world0 in
  let pest := detect_pest Sample.offline_env (Sample.upload Sample.leaf)
                Sample.world0 in
  (fst audio = Ok (mkResponse (error_body (u "Transcription failed")) 500)
   /\ files (snd audio) !! u "/tmp/tmp0.webm" = Some (stream SampleAudio.voice))
  /\ (fst pest = Ok (mkResponse (error_body (u "Pest detection failed")) 500)
      /\ files (snd pest) !! u "/tmp/tmp0.jpg" = Some (stream Sample.leaf)).
Proof.
  cbv zeta. repeat split; vm_compute; reflexivity.
Qed.

(** ** [/chat]: a body without a message *)

(** A chat body that is a JSON object without a message, or with a null
    one, is turned away like a blank message. *)
Lemma chat_missing_message_rejected env request w d :
  get_json request = Ok (PDict d) ->
  default PNone (dict_get d (u "message")) = PNone ->
  chat env request w
    = (Ok (mkResponse (reply (u "Please enter a valid message.")) 400), w).
Proof.
  intros Hj Hm. rewrite chat_of_body. unfold chat_body.
  unfold bind at 1. unfold lift at 1. rewrite Hj.
  unfold bind at 1. unfold lift at 1. unfold method_get. rewrite Hm.
  reflexivity.
Qed.

(** * Further properties of the handlers *)

(** ** [/chat]: every outcome *)

Lemma chat_body_run env request w :
  chat_body env request w =
    match chat_input env request with
    | Raise e => (Raise e, w)
    | Ok user_message =>
        if is_empty user_message then (Ok blank_message, w)
        else
          match chat_completions_create env user_message with
          | Raise e => (Raise e, world_chat_called w user_message)
          | Ok response =>
              match choices response with
              | [] => (Raise index_error, world_chat_called w user_message)
              | choice :: _ =>
                  (Ok (jsonify (reply_of choice)),
                   world_chat_logged env (world_chat_called w user_message)
                                     user_message (u "Response OK"))
              end
          end
    end.
Proof.
  unfold chat_body, chat_input.
  unfold bind at 1. unfold lift at 1.
  destruct (get_json request) as [data|e]; [|reflexivity].
  unfold bind at 1. unfold lift at 1.
  destruct (method_get data (u "message")) as [message|e]; [|reflexivity].
  unfold bind at 1. unfold lift at 1.
  destruct (method_strip (py_or env message (PStr []))) as [um|e];
    [|reflexivity].
  destruct (is_empty um); [reflexivity|].
  unfold bind, call_chat, emit, lift, ret. cbn.
  destruct (chat_completions_create env um) as [response|e]; [|reflexivity].
  destruct (choices response) as [|choice others]; [reflexivity|].
  cbn. rewrite log_chat_message_run. reflexivity.
Qed.

Lemma new_events_app w w' more :
  events w' = events w ++ more -> new_events w w' = more.
Proof. intros H. unfold new_events. rewrite H. apply drop_app_length. Qed.

(** ** Trimming twice *)

Lemma lstrip_id (s : pystr) :
  (forall c r, s = c :: r -> py_isspace c = false) -> lstrip s = s.
Proof.
  destruct s as [|c r]; [reflexivity|].
  intros H. simpl. by rewrite (H c r eq_refl).
Qed.

Lemma lstrip_snoc (l : pystr) c :
  py_isspace c = false -> exists p, lstrip (l ++ [c]) = p ++ [c].
Proof.
  intros Hc. induction l as [|a l [p Hp]]; simpl.
  - rewrite Hc. by exists [].
  - destruct (py_isspace a); [by exists p|].
    by exists (a :: l).
Qed.

Lemma rstrip_head c r :
  py_isspace c = false -> exists r', rstrip (c :: r) = c :: r'.
Proof.
  intros Hc. unfold rstrip. simpl.
  destruct (lstrip_snoc (rev r) c Hc) as [p ->].
  rewrite rev_app_distr. simpl. by eexists.
Qed.

(** [strip] gives a string it leaves as it is. *)
Lemma strip_idempotent (s : pystr) : strip (strip s) = strip s.
Proof.
  unfold strip.
  assert (lstrip (rstrip (lstrip s)) = rstrip (lstrip s)) as ->.
  { destruct (lstrip s) as [|c r] eqn:E; [reflexivity|].
    pose proof (lstrip_head _ _ _ E) as Hc.
    destruct (rstrip_head c r Hc) as [r' ->].
    simpl. by rewrite Hc. }
  unfold rstrip. rewrite rev_involutive.
  f_equal. apply lstrip_id. intros c r E. by apply lstrip_head in E.
Qed.

Lemma chat_input_trimmed env request message :
  chat_input env request = Ok message -> strip message = message.
Proof.
  unfold chat_input.
  destruct (get_json request) as [data|]; [|discriminate].
  destruct (method_get data (u "message")) as [v|]; [|discriminate].
  destruct (py_or env v (PStr [])); try discriminate.
  intros [= <-]. apply strip_idempotent.
Qed.

(** ** [/chat]: the reply *)



(** ** [/chat]: bodies without a usable message *)

(** X3. When the body of a chat request is a JSON object whose [message]
    is missing or falsy (null, the empty string, zero, false, an empty
    list or object), [/chat] answers 400 with the retry reply and leaves
    the world as it was. *)
Theorem chat_falsy_message_rejected env request w d :
  get_json request = Ok (PDict d) ->
  truthy env (default PNone (dict_get d (u "message"))) = false ->
  chat env request w
    = (Ok (mkResponse (reply (u "Please enter a valid message.")) 400), w).
Proof.
  intros Hj Hm. rewrite chat_of_body, chat_body_run.
  unfold chat_input, method_get, py_or. rewrite Hj, Hm. reflexivity.
Qed.

Lemma chat_without_message_rejected :
  chat Sample.offline_env SampleChat.no_message Sample.world0
    = (Ok (mkResponse (reply (u "Please enter a valid message.")) 400),
       Sample.world0).
Proof.
  apply (chat_falsy_message_rejected
           Sample.offline_env SampleChat.no_message Sample.world0
           [(u "text", PStr (u "hello"))]); reflexivity.
Defined.



(** ** [/chat]: when the provider is called *)

(** Every way a chat request ends. *)
Lemma chat_cases env request w :
  chat env request w = (Ok blank_message, w)
  \/ (exists e, chat env request w = (Ok chat_failed, world_chat_failed env w e))
  \/ (exists message,
        chat_input env request = Ok message /\ message <> []
        /\ ((exists e,
               chat env request w
                 = (Ok chat_failed,
                    world_chat_failed env (world_chat_called w message) e))
            \/ exists choice,
                 chat env request w
                   = (Ok (jsonify (reply_of choice)),
                      world_chat_logged env (world_chat_called w message)
                                        message (u "Response OK")))).
Proof.
  rewrite chat_of_body, chat_body_run.
  destruct (chat_input env request) as [message|e] eqn:Hin;
    [|right; left; by exists e].
  destruct message as [|c m]; [by left|]. right. right.
  exists (c :: m). split; [done|]. split; [done|]. cbn [is_empty].
  destruct (chat_completions_create env (c :: m)) as [response|e];
    [|left; by exists e].
  destruct (choices response) as [|choice others];
    [left; by exists index_error|right; by exists choice].
Qed.

(** X5. Whatever the request, [/chat] calls a provider at most once, and
    when it does, the call is to the completion provider with the trimmed
    message of the body, which is not empty and has no whitespace left at
    either end. *)
Theorem chat_calls_provider_with_trimmed_message env request w :
  (provider_calls (new_events w (snd (chat env request w))) <= 1)%nat
  /\ forall ev,
       In ev (new_events w (snd (chat env request w))) ->
       is_provider_call ev = true ->
       exists message,
         ev = EvChatCompletion message
         /\ chat_input env request = Ok message
         /\ message <> []
         /\ strip message = message.
Proof.
  destruct (chat_cases env request w)
    as [->|[[e ->]|(message & Hin & Hne & [[e ->]|[choice ->]])]].
  - unfold new_events. cbn. rewrite drop_all. cbn. split; [lia|tauto].
  - rewrite (new_events_app w _ [EvPrint (u "Chat error: " ++ exc_msg e ++ [10]);
        EvLogAppend chat_log
          (chat_log_line (clock env (ticks w)) (exc_msg e)
                         (u "Chat generation failed"))])
      by (cbn; by rewrite <- app_assoc).
    cbn. split; [lia|]. intros ev [<-|[<-|[]]]; discriminate.
  - rewrite (new_events_app w _ [EvChatCompletion message;
        EvPrint (u "Chat error: " ++ exc_msg e ++ [10]);
        EvLogAppend chat_log
          (chat_log_line (clock env (ticks w)) (exc_msg e)
                         (u "Chat generation failed"))])
      by (cbn; by rewrite <- !app_assoc).
    cbn. split; [lia|]. intros ev [<-|[<-|[<-|[]]]]; try discriminate.
    intros _. exists message. repeat split; try done.
    by apply (chat_input_trimmed env request).
  - rewrite (new_events_app w _ [EvChatCompletion message;
        EvLogAppend chat_log
          (chat_log_line (clock env (ticks w)) message (u "Response OK"))])
      by (cbn; by rewrite <- !app_assoc).
    cbn. split; [lia|]. intros ev [<-|[<-|[]]]; try discriminate.
    intros _. exists message. repeat split; try done.
    by apply (chat_input_trimmed env request).
Qed.

(** ** [/transcribe]: every outcome *)

Lemma transcribe_run env request w :
  transcribe_audio env request w =
    match files_get (request_files request) (u "file") with
    | None => (Ok no_file_uploaded, w)
    | Some file =>
        match transcriptions_create env (stream file) with
        | Ok result =>
            (Ok (jsonify (PDict [(u "text", PStr (strip (text result)))])),
             world_after_transcription env w file)
        | Raise e =>
            (Ok transcription_failed,
             world_printed (world_at_transcription env w file)
                           (u "Transcription error:") e)
        end
    end.
Proof.
  rewrite transcribe_of_body.
  destruct (files_get (request_files request) (u "file")) as [file|] eqn:Hf.
  - rewrite (transcribe_body_uploaded _ _ _ _ Hf).
    by destruct (transcriptions_create env (stream file)).
  - unfold transcribe_body. by rewrite Hf.
Qed.

(** X6. When the upload is there and the transcription provider returns,
    [/transcribe] answers 200 with the provider's text, trimmed; the
    provider received the bytes of the upload; the temporary file was
    created, filled and removed again, so a file store that did not hold
    the temporary path before is left exactly as it was. *)
Theorem transcribe_text_relayed_and_store_restored
    env request file w result :
  files_get (request_files request) (u "file") = Some file ->
  transcriptions_create env (stream file) = Ok result ->
  fst (transcribe_audio env request w)
    = Ok (mkResponse (PDict [(u "text", PStr (strip (text result)))]) 200)
  /\ new_events w (snd (transcribe_audio env request w))
     = [EvFileWrite (webm_path env w) [];
        EvFileWrite (webm_path env w) (stream file);
        EvTranscription (stream file);
        EvFileRemove (webm_path env w)]
  /\ (files w !! webm_path env w = None ->
      files (snd (transcribe_audio env request w)) = files w).
Proof.
  intros Hf Hres. rewrite transcribe_run, Hf, Hres. cbn.
  split; [reflexivity|]. split.
  - apply new_events_app. cbn. rewrite <- ?app_assoc. reflexivity.
  - intros Hfresh. rewrite insert_insert_eq. by apply delete_insert_id.
Qed.

Lemma transcribe_question_answered :
  let env := SampleChat.audio_env (u "  mausam kaisa hai ") in
  let request := Sample.upload SampleAudio.voice in
  fst (transcribe_audio env request Sample.world0)
    = Ok (mkResponse
            (PDict [(u "text",
                     PStr (strip (text (mkTranscription
                                          (u "  mausam kaisa hai ")))))])
            200)
  /\ new_events Sample.world0 (snd (transcribe_audio env request Sample.world0))
     = [EvFileWrite (webm_path env Sample.world0) [];
        EvFileWrite (webm_path env Sample.world0) (stream SampleAudio.voice);
        EvTranscription (stream SampleAudio.voice);
        EvFileRemove (webm_path env Sample.world0)]
  /\ (files Sample.world0 !! webm_path env Sample.world0 = None ->
      files (snd (transcribe_audio env request Sample.world0))
        = files Sample.world0).
Proof.
  cbv zeta.
  apply (transcribe_text_relayed_and_store_restored
           (SampleChat.audio_env (u "  mausam kaisa hai "))
           (Sample.upload SampleAudio.voice) SampleAudio.voice Sample.world0
           (mkTranscription (u "  mausam kaisa hai "))); reflexivity.
Defined.

(** X7. [/transcribe] keeps no audit log: whatever the request and
    whatever the provider does, every log file is as it was and the clock
    was not read. *)
Theorem transcribe_writes_no_log env request w :
  logs (snd (transcribe_audio env request w)) = logs w
  /\ ticks (snd (transcribe_audio env request w)) = ticks w.
Proof.
  rewrite transcribe_run.
  destruct (files_get (request_files request) (u "file")) as [file|];
    [|done].
  by destruct (transcriptions_create env (stream file)).
Qed.

(** ** [/detect_pest]: every outcome *)

Lemma normalize_cases env file result w :
  (exists e, normalize env file result w = (Raise e, w))
  \/ exists v status,
       normalize env file result w
         = (Ok (jsonify v), world_logged env w (filename file) status).
Proof.
  destruct (decide (strip (concatenate_text result) = [])) as [Hb|Hb].
  { left. eexists. by apply normalize_blank. }
  destruct (json_loads (concatenate_text result)) as [v|e] eqn:Hj.
  { right. eexists _, _. by apply normalize_parsed. }
  destruct (is_class JSONDecodeError e) eqn:Hc.
  - apply is_class_true in Hc. right. eexists _, _.
    by apply (normalize_fallback _ _ _ _ e).
  - left. exists e. apply normalize_other_error; [done..|].
    intros Heq%is_class_true. congruence.
Qed.

(** Every way a pest-detection request ends. *)
Lemma detect_pest_cases env request w :
  (exists r, status r = 400 /\ detect_pest env request w = (Ok r, w))
  \/ (exists file e,
        files_get (request_files request) (u "file") = Some file
        /\ filename file <> []
        /\ image_check env (stream file) = Raise e
        /\ detect_pest env request w
           = (Ok pest_failed, world_pest_failed env request w e))
  \/ exists file,
       decodable_upload env request file
       /\ ((exists e,
              generate_content env (stream file) = Raise e
              /\ detect_pest env request w
                 = (Ok pest_failed,
                    world_pest_failed env request (world_at_call env w file)
                                      e))
           \/ (exists result e,
                 generate_content env (stream file) = Ok result
                 /\ detect_pest env request w
                    = (Ok pest_failed,
                       world_pest_failed env request
                         (world_after_remove env w file) e))
           \/ exists result v status,
                generate_content env (stream file) = Ok result
                /\ detect_pest env request w
                   = (Ok (jsonify v),
                      world_logged env (world_after_remove env w file)
                                   (filename file) status)).
Proof.
  rewrite detect_pest_of_body.
  destruct (files_get (request_files request) (u "file")) as [file|] eqn:Hf.
  2: { left. exists no_file_uploaded.
       by rewrite (detect_pest_body_no_file _ _ _ Hf). }
  destruct (decide (filename file = [])) as [Hn|Hn].
  { left. exists no_file_selected.
    by rewrite (detect_pest_body_no_name _ _ _ _ Hf Hn). }
  destruct (image_check env (stream file)) as [[]|e] eqn:Hc.
  2: { rewrite (detect_pest_body_check_raises _ _ _ _ _ Hf Hn Hc).
       destruct (is_class UnidentifiedImageError e).
       - left. by exists invalid_image.
       - right. left. by exists file, e. }
  pose proof (image_check_ok _ _ _ Hf Hn Hc) as Hdec.
  right. right. exists file. split; [done|].
  rewrite (detect_pest_body_decoded _ _ _ _ Hdec).
  destruct (generate_content env (stream file)) as [result|e].
  2: { left. by exists e. }
  right.
  destruct (normalize_cases env file result (world_after_remove env w file))
    as [[e ->]|(v & st & ->)].
  - left. by exists result, e.
  - right. by exists result, v, st.
Qed.

(** ** Requests without an upload *)

(** X8. Without a [file] field, [/transcribe] and [/detect_pest] answer
    400 with [No file uploaded]; with a [file] field whose file name is
    empty, [/detect_pest] answers 400 with [No file selected]; in each
    case the world is left as it was. *)
Theorem missing_upload_rejected env request w :
  (files_get (request_files request) (u "file") = None ->
   transcribe_audio env request w
     = (Ok (mkResponse (error_body (u "No file uploaded")) 400), w)
   /\ detect_pest env request w
      = (Ok (mkResponse (error_body (u "No file uploaded")) 400), w))
  /\ (forall file,
         files_get (request_files request) (u "file") = Some file ->
         filename file = [] ->
         detect_pest env request w
           = (Ok (mkResponse (error_body (u "No file selected")) 400), w)).
Proof.
  split.
  - intros Hf. split.
    + by rewrite transcribe_run, Hf.
    + by rewrite detect_pest_of_body, (detect_pest_body_no_file _ _ _ Hf).
  - intros file Hf Hn.
    by rewrite detect_pest_of_body, (detect_pest_body_no_name _ _ _ _ Hf Hn).
Qed.

Lemma requests_without_upload_rejected :
  (transcribe_audio Sample.offline_env SampleChat.no_upload Sample.world0
     = (Ok (mkResponse (error_body (u "No file uploaded")) 400), Sample.world0)
   /\ detect_pest Sample.offline_env SampleChat.no_upload Sample.world0
      = (Ok (mkResponse (error_body (u "No file uploaded")) 400),
         Sample.world0))
  /\ detect_pest Sample.offline_env (Sample.upload SampleChat.unnamed)
                 Sample.world0
     = (Ok (mkResponse (error_body (u "No file selected")) 400),
        Sample.world0).
Proof.
  split.
  - apply (proj1 (missing_upload_rejected
                    Sample.offline_env SampleChat.no_upload Sample.world0)).
    reflexivity.
  - apply (proj2 (missing_upload_rejected
                    Sample.offline_env (Sample.upload SampleChat.unnamed)
                    Sample.world0) SampleChat.unnamed); reflexivity.
Defined.

(** ** [/detect_pest]: a decoder failure of another class *)



(** ** [/detect_pest]: what stays in the file store *)

(** X10. With a decodable image and a vision model that returns, whatever
    becomes of its answer, the request leaves the file store as it was
    but for the archived image: provided the temporary path was free and
    is not the archive path, the store afterwards is the store before
    with the uploaded bytes at the archive path. *)
Theorem detect_pest_store_gains_only_the_archive
    env request file w result :
  decodable_upload env request file ->
  generate_content env (stream file) = Ok result ->
  files w !! img_path env w = None ->
  img_path env w <> save_path env w file ->
  files (snd (detect_pest env request w))
    = <[save_path env w file := stream file]> (files w).
Proof.
  intros Hdec Hgen Hfresh Hne.
  rewrite detect_pest_files_of_body,
    (detect_pest_body_decoded _ _ _ _ Hdec), Hgen, normalize_files.
  cbn. rewrite insert_insert_eq. apply delete_insert_id.
  by rewrite lookup_insert_ne.
Qed.

Lemma detect_pest_store_after_leaf_photo :
  files (snd (detect_pest (Sample.vision_env [u "{}"])
                          (Sample.upload Sample.leaf) Sample.world0))
    = <[save_path (Sample.vision_env [u "{}"]) Sample.world0 Sample.leaf
        := stream Sample.leaf]> (files Sample.world0).
Proof.
  apply (detect_pest_store_gains_only_the_archive
           (Sample.vision_env [u "{}"]) (Sample.upload Sample.leaf)
           Sample.leaf Sample.world0 (Sample.result_of_parts [u "{}"])).
  - repeat split; try (vm_compute; reflexivity). vm_compute. discriminate.
  - reflexivity.
  - reflexivity.
  - vm_compute. discriminate.
Defined.

(** ** [/detect_pest]: when the model is called *)

Lemma world_pest_failed_events env request w e :
  events (world_pest_failed env request w e)
    = events w
      ++ [EvPrint (u "Pest detection error: " ++ exc_msg e ++ [10]);
          EvLogAppend pest_log
            (pest_log_line (clock env (ticks w)) (logged_name request)
                           (u "Error: " ++ exc_msg e))].
Proof. cbn. by rewrite <- app_assoc. Qed.

(** X11. Whatever the request, [/detect_pest] calls a provider at most
    once, and when it does, the call is to the vision model, on the bytes
    of an upload that is present, named and decodable. *)
Theorem detect_pest_calls_model_only_on_decodable_upload env request w :
  (provider_calls (new_events w (snd (detect_pest env request w))) <= 1)%nat
  /\ forall ev,
       In ev (new_events w (snd (detect_pest env request w))) ->
       is_provider_call ev = true ->
       exists file,
         decodable_upload env request file
         /\ ev = EvGenerateContent (stream file).
Proof.
  destruct (detect_pest_cases env request w)
    as [(r & _ & ->)
       |[(file & e & _ & _ & _ & ->)
        |(file & Hdec & [(e & _ & ->)
                        |[(result & e & _ & ->)
                         |(result & v & st & _ & ->)]])]];
    cbn [snd].
  - unfold new_events. cbn. rewrite drop_all. cbn. split; [lia|tauto].
  - erewrite new_events_app by apply world_pest_failed_events.
    cbn. split; [lia|]. intros ev [<-|[<-|[]]]; discriminate.
  - erewrite new_events_app
      by (rewrite world_pest_failed_events; cbn; rewrite <- !app_assoc;
          reflexivity).
    cbn. split; [lia|].
    intros ev [<-|[<-|[<-|[<-|[<-|[<-|[]]]]]]]; try discriminate.
    intros _. by exists file.
  - erewrite new_events_app
      by (rewrite world_pest_failed_events; cbn; rewrite <- !app_assoc;
          reflexivity).
    cbn. split; [lia|].
    intros ev [<-|[<-|[<-|[<-|[<-|[<-|[<-|[]]]]]]]]; try discriminate.
    intros _. by exists file.
  - erewrite new_events_app by (cbn; rewrite <- !app_assoc; reflexivity).
    cbn. split; [lia|].
    intros ev [<-|[<-|[<-|[<-|[<-|[<-|[]]]]]]]; try discriminate.
    intros _. by exists file.
Qed.

(** ** [/detect_pest]: the audit trail of a validated request *)



(** ** All three handlers *)

(** X14. A request answered 400 has had no effect: whichever handler
    answers with status 400, the world (files, logs, clock, trace) is
    left as it was, so no provider was called for it. *)
Theorem answers_400_leave_world_unchanged env request w r w' :
  (chat env request w = (Ok r, w')
   \/ transcribe_audio env request w = (Ok r, w')
   \/ detect_pest env request w = (Ok r, w')) ->
  status r = 400 ->
  w' = w.
Proof.
  intros [H|[H|H]] Hst.
  - destruct (chat_cases env request w)
      as [Hc|[[e Hc]|(m & _ & _ & [[e Hc]|[c Hc]])]];
      rewrite Hc in H; injection H as <- <-; try done; discriminate Hst.
  - rewrite transcribe_run in H.
    destruct (files_get (request_files request) (u "file")) as [file|].
    + destruct (transcriptions_create env (stream file));
        injection H as <- <-; discriminate Hst.
    + by injection H as <- <-.
  - destruct (detect_pest_cases env request w)
      as [(r0 & _ & Hc)
         |[(file & e & _ & _ & _ & Hc)
          |(file & _ & [(e & _ & Hc)
                       |[(result & e & _ & Hc)
                        |(result & v & st & _ & Hc)]])]];
      rewrite Hc in H; injection H as <- <-; try done; discriminate Hst.
Qed.

Lemma chat_without_message_has_no_effect :
  snd (chat Sample.offline_env SampleChat.no_message Sample.world0)
    = Sample.world0.
Proof.
  apply (answers_400_leave_world_unchanged
           Sample.offline_env SampleChat.no_message Sample.world0
           (mkResponse (reply (u "Please enter a valid message.")) 400)
           (snd (chat Sample.offline_env SampleChat.no_message
                      Sample.world0))).
  - left. vm_compute. reflexivity.
  - reflexivity.
Defined.

(** ** The log files *)

Lemma logs_grow_refl w w' : logs w' = logs w -> logs_grow w w'.
Proof.
  intros H path old Hp. exists []. by rewrite H, app_nil_r.
Qed.

Lemma logs_grow_insert (w w' : World) file line :
  logs w' = <[file := default [] (logs w !! file) ++ line]> (logs w) ->
  logs_grow w w'.
Proof.
  intros H path old Hp. rewrite H.
  destruct (decide (file = path)) as [->|Hne].
  - rewrite lookup_insert_eq, Hp. by exists line.
  - rewrite lookup_insert_ne by done. exists []. by rewrite app_nil_r.
Qed.

Lemma logs_same_outside_refl file w w' :
  logs w' = logs w -> logs_same_outside file w w'.
Proof. intros H path _. by rewrite H. Qed.

Lemma logs_same_outside_insert (w w' : World) file content :
  logs w' = <[file := content]> (logs w) -> logs_same_outside file w w'.
Proof. intros H path Hne. rewrite H. by rewrite lookup_insert_ne. Qed.

(** How each handler leaves the log files: as they were, or with one
    line appended to its own log. *)
Lemma chat_logs env request w :
  logs (snd (chat env request w)) = logs w
  \/ exists line,
       logs (snd (chat env request w))
         = <[chat_log := default [] (logs w !! chat_log) ++ line]> (logs w).
Proof.
  destruct (chat_cases env request w)
    as [->|[[e ->]|(m & _ & _ & [[e ->]|[c ->]])]]; cbn;
    [by left|right; by eexists..].
Qed.

Lemma detect_pest_logs env request w :
  logs (snd (detect_pest env request w)) = logs w
  \/ exists line,
       logs (snd (detect_pest env request w))
         = <[pest_log := default [] (logs w !! pest_log) ++ line]> (logs w).
Proof.
  destruct (detect_pest_cases env request w)
    as [(r0 & _ & ->)
       |[(file & e & _ & _ & _ & ->)
        |(file & _ & [(e & _ & ->)
                     |[(result & e & _ & ->)
                      |(result & v & st & _ & ->)]])]]; cbn;
    [by left|right; by eexists..].
Qed.

(** X16. The logs are append-only: whatever a request to any of the
    three handlers does, every log file that existed before still exists
    afterwards and its earlier content is a prefix of its later
    content. *)
Theorem handlers_only_append_to_logs env request w :
  logs_grow w (snd (chat env request w))
  /\ logs_grow w (snd (transcribe_audio env request w))
  /\ logs_grow w (snd (detect_pest env request w)).
Proof.
  repeat split.
  - destruct (chat_logs env request w) as [H|[line H]];
      [by apply logs_grow_refl|by eapply logs_grow_insert].
  - apply logs_grow_refl. rewrite transcribe_run.
    destruct (files_get (request_files request) (u "file")) as [file|];
      [|done].
    by destruct (transcriptions_create env (stream file)).
  - destruct (detect_pest_logs env request w) as [H|[line H]];
      [by apply logs_grow_refl|by eapply logs_grow_insert].
Qed.

(** X17. Each handler writes to its own log only: [/chat] leaves every
    log file other than [chat_logs.txt] as it was and never touches the
    binary files; [/detect_pest] leaves every log file other than
    [pest_uploads.txt] as it was.  In particular no handler writes to
    [system.log], the default file of [log_event]. *)
Theorem handlers_write_their_own_log_only env request w :
  (logs_same_outside chat_log w (snd (chat env request w))
   /\ files (snd (chat env request w)) = files w)
  /\ logs_same_outside pest_log w (snd (detect_pest env request w))
  /\ logs (snd (chat env request w)) !! u "system.log"
     = logs w !! u "system.log"
  /\ logs (snd (detect_pest env request w)) !! u "system.log"
     = logs w !! u "system.log".
Proof.
  assert (Hchat : logs_same_outside chat_log w (snd (chat env request w))).
  { destruct (chat_logs env request w) as [H|[line H]];
      [by apply logs_same_outside_refl|by eapply logs_same_outside_insert]. }
  assert (Hpest : logs_same_outside pest_log w
                    (snd (detect_pest env request w))).
  { destruct (detect_pest_logs env request w) as [H|[line H]];
      [by apply logs_same_outside_refl|by eapply logs_same_outside_insert]. }
  repeat split; try done.
  - destruct (chat_cases env request w)
      as [->|[[e ->]|(m & _ & _ & [[e ->]|[c ->]])]]; reflexivity.
  - apply Hchat. vm_compute. discriminate.
  - apply Hpest. vm_compute. discriminate.
Qed.

(** ** [log_event] *)

Lemma log_event_run env area message file w :
  log_event env area message file w
    = (Ok tt,
       mkWorld (files w)
               (<[file := default [] (logs w !! file)
                            ++ log_line (clock env (ticks w)) area message]>
                  (logs w))
               (S (ticks w)) (temps w)
               (events w
                  ++ [EvLogAppend file
                        (log_line (clock env (ticks w)) area message)])).
Proof. reflexivity. Qed.

(** X18. [log_event] appends and never overwrites: two calls in a row on
    the same file leave the earlier content followed by the two lines in
    the order of the calls, each stamped with its own clock reading; the
    other log files and the binary files are as they were. *)
Theorem log_event_twice_appends_in_order
    env area1 message1 area2 message2 file w :
  let w' := snd (bind (log_event env area1 message1 file)
                      (fun _ => log_event env area2 message2 file) w) in
  logs w' !! file
    = Some (default [] (logs w !! file)
              ++ log_line (clock env (ticks w)) area1 message1
              ++ log_line (clock env (S (ticks w))) area2 message2)
  /\ logs_same_outside file w w'
  /\ files w' = files w.
Proof.
  cbv zeta. unfold bind. rewrite !log_event_run. cbn.
  split; [|split; [|reflexivity]].
  - rewrite !lookup_insert_eq. cbn [from_option id].
    f_equal. symmetry. apply app_assoc.
  - intros path Hne. cbn. by rewrite !lookup_insert_ne by congruence.
Qed.

(** ** Timestamps and archive paths *)

Lemma digits_fuel_last f n acc :
  n / 10 = 0 -> digits_fuel (S f) n acc = (48 + n mod 10) :: acc.
Proof. intros H. simpl. by rewrite H. Qed.

Lemma digits_fuel_step f n acc :
  n / 10 <> 0 ->
  digits_fuel (S f) n acc = digits_fuel f (n / 10) ((48 + n mod 10) :: acc).
Proof. intros H. simpl. by apply N.eqb_neq in H as ->. Qed.

Lemma digits_fuel_digits fuel :
  forall n acc,
    forallb is_digit acc = true ->
    forallb is_digit (digits_fuel fuel n acc) = true.
Proof.
  induction fuel as [|f IH]; intros n acc Hacc; [exact Hacc|].
  assert (Hd : is_digit (48 + n mod 10) = true).
  { unfold is_digit. apply andb_true_iff.
    rewrite !N.leb_le.
    pose proof (N.mod_upper_bound n 10 ltac:(lia)) as Hm.
    revert Hm. generalize (n mod 10). intros d Hm. lia. }
  destruct (N.eq_dec (n / 10) 0) as [H|H].
  - rewrite (digits_fuel_last _ _ _ H). simpl. by rewrite Hd.
  - rewrite (digits_fuel_step _ _ _ H). apply IH. simpl. by rewrite Hd.
Qed.

Lemma zpad_digits width n : forallb is_digit (zpad width n) = true.
Proof.
  unfold zpad. rewrite forallb_app. apply andb_true_iff. split.
  - induction (width - length (digits n))%nat; [reflexivity|exact IHn0].
  - by apply digits_fuel_digits.
Qed.

Lemma forallb_weaken {A} (f g : A -> bool) (l : list A) :
  (forall a, f a = true -> g a = true) ->
  forallb f l = true -> forallb g l = true.
Proof.
  intros H. induction l as [|a l IH]; [done|]. simpl.
  intros [Ha Hl]%andb_true_iff. by rewrite (H a Ha), IH.
Qed.

Lemma strftime_compact_chars t :
  forallb is_stamp_char (strftime_compact t) = true.
Proof.
  assert (Hz : forall width n, forallb is_stamp_char (zpad width n) = true).
  { intros width n. apply (forallb_weaken is_digit); [|apply zpad_digits].
    intros a Ha. unfold is_stamp_char. by rewrite Ha. }
  unfold strftime_compact. rewrite !forallb_app, !Hz. reflexivity.
Qed.

(** X19. The path an upload is archived under lies in the uploads
    directory and contains no space: the timestamp is made of digits and
    one underscore, and every space of the file name has become an
    underscore. *)
Theorem archive_path_has_no_space env w file :
  forallb is_stamp_char (strftime_compact (clock env (ticks w))) = true
  /\ ~ In 32 (replace_char 32 95 (filename file))
  /\ length (replace_char 32 95 (filename file)) = length (filename file)
  /\ ~ In 32 (save_path env w file).
Proof.
  assert (Hname : ~ In 32 (replace_char 32 95 (filename file))).
  { unfold replace_char. intros (c & Hc & _)%in_map_iff.
    destruct (c =? 32) eqn:E; [discriminate|].
    apply N.eqb_neq in E. congruence. }
  assert (Hstamp : forall t, ~ In 32 (strftime_compact t)).
  { intros t Hin. pose proof (strftime_compact_chars t) as Hall.
    rewrite forallb_forall in Hall. specialize (Hall 32 Hin).
    discriminate. }
  split; [apply strftime_compact_chars|]. split; [exact Hname|].
  split; [apply length_map|].
  rewrite save_path_in_uploads. unfold archive_name.
  rewrite !in_app_iff. intros [H|[H|[H|H]]].
  - vm_compute in H. intuition discriminate.
  - by apply (Hstamp (clock env (ticks w))).
  - vm_compute in H. intuition discriminate.
  - by apply Hname.
Qed.

Lemma zpad_two n : n <= 99 -> length (zpad 2 n) = 2%nat.
Proof.
  intros Hn. unfold zpad, digits.
  destruct (N.eq_dec (n / 10) 0) as [H|H].
  - by rewrite (digits_fuel_last _ _ _ H).
  - rewrite (digits_fuel_step _ _ _ H).
    destruct (N.to_nat n) as [|f] eqn:E.
    { assert (n = 0) as -> by lia. by destruct H. }
    rewrite digits_fuel_last; [reflexivity|].
    apply N.div_small. apply N.Div0.div_lt_upper_bound; lia.
Qed.

Lemma zpad_four n : 1000 <= n <= 9999 -> length (zpad 4 n) = 4%nat.
Proof.
  intros Hn. unfold zpad, digits.
  assert (H1 : 100 <= n / 10 <= 999).
  { split; [apply N.div_le_lower_bound; lia|].
    apply N.lt_succ_r, N.Div0.div_lt_upper_bound; lia. }
  assert (H2 : 10 <= n / 10 / 10 <= 99).
  { split; [apply N.div_le_lower_bound; lia|].
    apply N.lt_succ_r, N.Div0.div_lt_upper_bound; lia. }
  assert (H3 : 1 <= n / 10 / 10 / 10 <= 9).
  { split; [apply N.div_le_lower_bound; lia|].
    apply N.lt_succ_r, N.Div0.div_lt_upper_bound; lia. }
  destruct (N.to_nat n) as [|[|[|f]]] eqn:E; try lia.
  rewrite digits_fuel_step by lia.
  rewrite digits_fuel_step by lia.
  rewrite digits_fuel_step by lia.
  rewrite digits_fuel_last; [reflexivity|].
  apply N.div_small. lia.
Qed.

(** X20. For a date of the calendar with a four-digit year the two
    timestamps have a fixed width: 15 characters in the archive path
    and 19 in a log line, every field padded with zeros. *)
Theorem timestamps_have_fixed_width t :
  calendar_date t ->
  length (strftime_compact t) = 15%nat /\ length (strftime_log t) = 19%nat.
Proof.
  intros (Hy & Hmo & Hd & Hh & Hmi & Hs).
  unfold strftime_compact, strftime_log. rewrite !length_app.
  rewrite (zpad_four _ Hy).
  rewrite !zpad_two by lia. split; reflexivity.
Qed.

Lemma sample_timestamps_have_fixed_width :
  length (strftime_compact (Sample.clock 7)) = 15%nat
  /\ length (strftime_log (Sample.clock 7)) = 19%nat.
Proof.
  apply (timestamps_have_fixed_width (Sample.clock 7)).
  vm_compute. repeat split; discriminate.
Defined.

(** ** The text of a model result *)

(** The text gathered from a model result follows the order of the
    candidates. *)
Lemma concatenate_text_app cs1 cs2 :
  concatenate_text (Some (mkGenResponse (Some (cs1 ++ cs2))))
    = concatenate_text (Some (mkGenResponse (Some cs1)))
      ++ concatenate_text (Some (mkGenResponse (Some cs2))).
Proof.
  assert (H : forall cs,
             concatenate_text (Some (mkGenResponse (Some cs)))
               = flat_map
                   (fun c =>
                      flat_map (fun part => default [] (part_text part))
                               (default [] (content_parts c))) cs)
    by (by intros [|c cs]).
  rewrite !H. apply flat_map_app.
Qed.

(** X21. The answer of [/detect_pest] depends on the model's result only
    through the text gathered from it: for a decodable image, a model
    that returns another result with the same gathered text (the same
    text split differently over parts and candidates, say) leads to the
    same response and the same world. *)
Theorem detect_pest_answer_depends_on_gathered_text
    env request file w result result' :
  decodable_upload env request file ->
  generate_content env (stream file) = Ok result ->
  concatenate_text result' = concatenate_text result ->
  detect_pest (with_generate env (fun _ => Ok result')) request w
    = detect_pest env request w.
Proof.
  intros Hdec Hgen Htext.
  assert (Hdec' : decodable_upload (with_generate env (fun _ => Ok result'))
                                   request file) by exact Hdec.
  rewrite !detect_pest_of_body.
  rewrite (detect_pest_body_decoded _ _ _ _ Hdec),
    (detect_pest_body_decoded _ _ _ _ Hdec'), Hgen.
  cbn [generate_content with_generate].
  assert (normalize (with_generate env (fun _ => Ok result')) file result'
                    (world_after_remove
                       (with_generate env (fun _ => Ok result')) w file)
          = normalize env file result (world_after_remove env w file)) as ->.
  { unfold normalize. rewrite Htext. reflexivity. }
  reflexivity.
Qed.

Lemma detect_pest_split_answer_same_as_whole :
  detect_pest (with_generate (Sample.vision_env SampleJson.aphid_parts)
                 (fun _ => Ok (Sample.result_of_parts
                                 [concat SampleJson.aphid_parts])))
              (Sample.upload Sample.leaf) Sample.world0
    = detect_pest (Sample.vision_env SampleJson.aphid_parts)
                  (Sample.upload Sample.leaf) Sample.world0.
Proof.
  apply (detect_pest_answer_depends_on_gathered_text
           (Sample.vision_env SampleJson.aphid_parts)
           (Sample.upload Sample.leaf) Sample.leaf Sample.world0
           (Sample.result_of_parts SampleJson.aphid_parts)
           (Sample.result_of_parts [concat SampleJson.aphid_parts])).
  - repeat split; try (vm_compute; reflexivity). vm_compute. discriminate.
  - reflexivity.
  - vm_compute. reflexivity.
Defined.

(** ** [/transcribe]: when the provider is called *)

(** X22. Whatever the request, [/transcribe] calls a provider at most
    once, and when it does, the call is to the transcription provider,
    on the bytes of the uploaded file. *)
Theorem transcribe_calls_provider_only_on_upload env request w :
  (provider_calls (new_events w (snd (transcribe_audio env request w)))
     <= 1)%nat
  /\ forall ev,
       In ev (new_events w (snd (transcribe_audio env request w))) ->
       is_provider_call ev = true ->
       exists file,
         files_get (request_files request) (u "file") = Some file
         /\ ev = EvTranscription (stream file).
Proof.
  rewrite transcribe_run.
  destruct (files_get (request_files request) (u "file")) as [file|].
  - destruct (transcriptions_create env (stream file)) as [result|e];
      cbn [snd];
      (erewrite new_events_app by (cbn; rewrite <- ?app_assoc; reflexivity));
      cbn; (split; [lia|]).
    + intros ev [<-|[<-|[<-|[<-|[]]]]]; try discriminate.
      intros _. by exists file.
    + intros ev [<-|[<-|[<-|[<-|[]]]]]; try discriminate.
      intros _. by exists file.
  - unfold new_events. cbn. rewrite drop_all. cbn. split; [lia|tauto].
Qed.

(** ** The archive over two requests *)

(** The archived image is in the store when the request completes,
    whatever the vision model did. *)
Lemma detect_pest_archive_kept env request file w :
  decodable_upload env request file ->
  img_path env w <> save_path env w file ->
  files (snd (detect_pest env request w)) !! save_path env w file
    = Some (stream file).
Proof.
  intros Hdec Hne.
  rewrite detect_pest_files_of_body, (detect_pest_body_decoded _ _ _ _ Hdec).
  destruct (generate_content env (stream file)) as [result|e].
  - rewrite normalize_files. cbn.
    rewrite lookup_delete_ne, !lookup_insert_ne by done.
    apply lookup_insert_eq.
  - cbn. rewrite !lookup_insert_ne by done. apply lookup_insert_eq.
Qed.

(** X23. The archive is keyed by the second and the file name with its
    spaces turned into underscores, and is not write-once: when a second
    decodable upload gets the archive path of an earlier one (same second
    on the clock, same name up to spaces and underscores), its bytes
    replace the earlier image at that path. *)
Theorem archive_entry_replaced_under_same_key
    env request1 file1 request2 file2 w :
  decodable_upload env request1 file1 ->
  decodable_upload env request2 file2 ->
  save_path env (snd (detect_pest env request1 w)) file2
    = save_path env w file1 ->
  img_path env w <> save_path env w file1 ->
  img_path env (snd (detect_pest env request1 w)) <> save_path env w file1 ->
  files (snd (detect_pest env request1 w)) !! save_path env w file1
    = Some (stream file1)
  /\ files (snd (detect_pest env request2 (snd (detect_pest env request1 w))))
       !! save_path env w file1
     = Some (stream file2).
Proof.
  intros Hdec1 Hdec2 Hkey Hne1 Hne2. split.
  - by apply detect_pest_archive_kept.
  - rewrite <- Hkey. apply detect_pest_archive_kept; [done|].
    by rewrite Hkey.
Qed.

Lemma leaf_photo_replaced_in_archive :
  let env := SampleChat.frozen_env in
  let first := detect_pest env (Sample.upload Sample.leaf) Sample.world0 in
  let second :=
    detect_pest env (Sample.upload SampleChat.leaf_again) (snd first) in
  files (snd first) !! save_path env Sample.world0 Sample.leaf
    = Some (stream Sample.leaf)
  /\ files (snd second) !! save_path env Sample.world0 Sample.leaf
     = Some (stream SampleChat.leaf_again).
Proof.
  cbv zeta.
  apply (archive_entry_replaced_under_same_key
           SampleChat.frozen_env (Sample.upload Sample.leaf) Sample.leaf
           (Sample.upload SampleChat.leaf_again) SampleChat.leaf_again
           Sample.world0).
  - repeat split; try (vm_compute; reflexivity). vm_compute. discriminate.
  - repeat split; try (vm_compute; reflexivity). vm_compute. discriminate.
  - vm_compute. reflexivity.
  - vm_compute. discriminate.
  - vm_compute. discriminate.
Defined.

(** * Properties of the handlers over fallible operations *)

Arguments Io.log_pest_upload : simpl never.
Arguments Io.log_chat_message : simpl never.
Arguments Io.encode_error : simpl never.

(** ** Outcomes, operation by operation *)

Section Outcomes.

Context {A : Type} (Q : Result A -> World -> Prop) (w : World).

Lemma wp_ret a : Q (Ok a) w -> wp (ret a) Q w.
Proof. exact id. Qed.

Lemma wp_raise e : Q (Raise e) w -> wp (raise e) Q w.
Proof. exact id. Qed.

Lemma wp_lift r : Q r w -> wp (lift r) Q w.
Proof. exact id. Qed.

Lemma wp_bind {B} (m : M B) (k : B -> M A) :
  wp m (fun r w1 =>
          match r with
          | Ok b => wp (k b) Q w1
          | Raise e => Q (Raise e) w1
          end) w ->
  wp (bind m k) Q w.
Proof. unfold wp, bind. by destruct (m w) as [[b|e] w1]. Qed.

Lemma wp_try_except (body : M A) (catches : Exc -> bool)
    (handler : Exc -> M A) :
  wp body (fun r w1 =>
             match r with
             | Ok a => Q (Ok a) w1
             | Raise e =>
                 if catches e then wp (handler e) Q w1 else Q (Raise e) w1
             end) w ->
  wp (try_except body catches handler) Q w.
Proof.
  unfold wp, try_except. destruct (body w) as [[a|e] w1]; [done|].
  cbn. by destruct (catches e).
Qed.

End Outcomes.

Section OutcomesOfOperations.

Context (w : World).

Lemma wp_attempt os op (Q : Result unit -> World -> Prop) :
  (forall e, os op = Some e -> Q (Raise e) w) ->
  (os op = None -> Q (Ok tt) w) ->
  wp (Io.attempt os op) Q w.
Proof.
  intros Hr Hn. unfold wp, Io.attempt. destruct (os op) as [e|]; cbn; auto.
Qed.

Lemma wp_emit ev (Q : Result unit -> World -> Prop) :
  Q (Ok tt) (mkWorld (files w) (logs w) (ticks w) (temps w)
                     (events w ++ [ev])) ->
  wp (emit ev) Q w.
Proof. exact id. Qed.

Lemma wp_datetime_now env (Q : Result DateTime -> World -> Prop) :
  Q (Ok (clock env (ticks w)))
    (mkWorld (files w) (logs w) (S (ticks w)) (temps w) (events w)) ->
  wp (datetime_now env) Q w.
Proof. exact id. Qed.

Lemma wp_write_file path data (Q : Result unit -> World -> Prop) :
  Q (Ok tt) (mkWorld (<[path := data]> (files w)) (logs w) (ticks w)
                     (temps w) (events w ++ [EvFileWrite path data])) ->
  wp (write_file path data) Q w.
Proof. exact id. Qed.

Lemma wp_append_text path line (Q : Result unit -> World -> Prop) :
  Q (Ok tt)
    (mkWorld (files w)
             (<[path := default [] (logs w !! path) ++ line]> (logs w))
             (ticks w) (temps w) (events w ++ [EvLogAppend path line])) ->
  wp (append_text path line) Q w.
Proof. exact id. Qed.

Lemma wp_truncate path (Q : Result unit -> World -> Prop) :
  Q (Ok tt) (mkWorld (<[path := []]> (files w)) (logs w) (ticks w)
                     (temps w) (events w)) ->
  wp (Io.truncate path) Q w.
Proof. exact id. Qed.

Lemma wp_touch path (Q : Result unit -> World -> Prop) :
  Q (Ok tt) (mkWorld (files w)
                     (<[path := default [] (logs w !! path)]> (logs w))
                     (ticks w) (temps w) (events w)) ->
  wp (Io.touch path) Q w.
Proof. exact id. Qed.

Lemma wp_named_temporary_file env suffix
    (Q : Result pystr -> World -> Prop) :
  Q (Ok (temp_name env (temps w) suffix))
    (mkWorld (<[temp_name env (temps w) suffix := []]> (files w)) (logs w)
             (ticks w) (S (temps w))
             (events w ++ [EvFileWrite (temp_name env (temps w) suffix) []])) ->
  wp (named_temporary_file env suffix) Q w.
Proof. exact id. Qed.

Lemma wp_read_file path (Q : Result bytes -> World -> Prop) :
  (forall data, files w !! path = Some data -> Q (Ok data) w) ->
  (files w !! path = None -> Q (Raise (mkExc FileNotFoundError path)) w) ->
  wp (read_file path) Q w.
Proof.
  intros Hs Hn. unfold wp, read_file.
  destruct (files w !! path) as [data|]; cbn; auto.
Qed.

Lemma wp_os_remove path (Q : Result unit -> World -> Prop) :
  (forall data,
      files w !! path = Some data ->
      Q (Ok tt) (mkWorld (delete path (files w)) (logs w) (ticks w) (temps w)
                         (events w ++ [EvFileRemove path]))) ->
  (files w !! path = None -> Q (Raise (mkExc FileNotFoundError path)) w) ->
  wp (os_remove path) Q w.
Proof.
  intros Hs Hn. unfold wp, os_remove.
  destruct (files w !! path) as [data|]; cbn; eauto.
Qed.

End OutcomesOfOperations.

Lemma new_events_same w w' : events w' = events w -> new_events w w' = [].
Proof.
  intros H. apply new_events_app. by rewrite H, app_nil_r.
Qed.

(** The effects a run added, once the run has been followed to its end. *)
Ltac norm_trace :=
  unfold new_events; cbn [events];
  rewrite <- ?(@app_assoc Event);
  rewrite ?drop_app_length, ?drop_all; cbn [app].

Lemma has_nul_chat_log : Io.has_nul (u "chat_logs.txt") = false.
Proof. reflexivity. Qed.

Lemma has_nul_pest_log : Io.has_nul (u "pest_uploads.txt") = false.
Proof. reflexivity. Qed.

(** One step of a handler. *)
Ltac wp_head t :=
  lazymatch t with
  | ?f _ => wp_head f
  | _ => t
  end.

(** The cases of a value the handler inspects: the one the context
    tells, or each of them. *)
Ltac wp_case x :=
  first [ match goal with H : x = _ |- _ => rewrite H end
        | destruct x eqn:? ].

Ltac wp_step :=
  lazymatch goal with
  | |- wp (bind _ _) _ _ => apply wp_bind
  | |- wp (ret _) _ _ => apply wp_ret
  | |- wp (raise _) _ _ => apply wp_raise
  | |- wp (lift _) _ _ => apply wp_lift
  | |- wp (try_except _ _ _) _ _ => apply wp_try_except
  | |- wp (Io.attempt _ _) _ _ =>
      apply wp_attempt; [intros ? ?|intros ?]; try congruence
  | |- wp (emit _) _ _ => apply wp_emit
  | |- wp (datetime_now _) _ _ => apply wp_datetime_now
  | |- wp (write_file _ _) _ _ => apply wp_write_file
  | |- wp (append_text _ _) _ _ => apply wp_append_text
  | |- wp (Io.truncate _) _ _ => apply wp_truncate
  | |- wp (Io.touch _) _ _ => apply wp_touch
  | |- wp (named_temporary_file _ _) _ _ => apply wp_named_temporary_file
  | |- wp (read_file _) _ _ =>
      let H := fresh "Hread" in
      apply wp_read_file; cbn [files]; rewrite ?lookup_insert_eq;
      [intros ? H; try injection H as <-|intros H; try discriminate H]
  | |- wp (os_remove _) _ _ =>
      let H := fresh "Hthere" in
      apply wp_os_remove; cbn [files]; rewrite ?lookup_insert_eq;
      [intros ? H; try injection H as <-|intros H; try discriminate H]
  | |- wp (Io.open_file _ _ _) _ _ =>
      unfold Io.open_file; rewrite ?has_nul_chat_log, ?has_nul_pest_log
  | |- wp (if ?b then _ else _) _ _ => wp_case b
  | |- wp (match ?x with _ => _ end) _ _ => wp_case x
  | |- wp ?m _ _ => let h := wp_head m in unfold h
  | |- match ?r with _ => _ end => wp_case r
  end;
  cbn beta iota zeta; cbn [files logs ticks temps events].

Ltac wp_run := repeat wp_step.


(** ** The local operations, when they succeed *)

Lemma print_error_run os label e w :
  print_outcome os label e = None ->
  Io.print_error os label e w = (Ok tt, world_printed w label e).
Proof.
  unfold print_outcome. intros H.
  unfold Io.print_error, bind, Io.attempt. by rewrite H.
Qed.

Lemma append_line_run os path line w :
  append_outcome os path line = None ->
  Io.append_line os path line w = append_text path line w.
Proof.
  unfold append_outcome, open_outcome, Io.append_line, Io.open_file.
  destruct (Io.has_nul path); [discriminate|].
  unfold bind, Io.attempt, Io.touch.
  destruct (os (Io.OpOpen path Io.ModeAppend)); [discriminate|].
  destruct (Io.encode_error line); [discriminate|].
  intros ->. cbn. unfold append_text. cbn.
  by rewrite lookup_insert_eq, insert_insert_eq.
Qed.

Lemma log_chat_message_io_run os env message status w :
  append_outcome os chat_log
    (chat_log_line (clock env (ticks w)) message status) = None ->
  Io.log_chat_message os env message status w
    = (Ok tt, world_chat_logged env w message status).
Proof.
  intros H. rewrite <- (log_chat_message_run env message status w).
  unfold Io.log_chat_message, Io.log_event, log_chat_message, log_event,
    bind, datetime_now.
  apply append_line_run.
  unfold chat_log_line, status_sep in H. cbn [ticks].
  by rewrite <- !app_assoc in *.
Qed.

Lemma log_pest_upload_io_run os env name status w :
  append_outcome os pest_log
    (pest_log_line (clock env (ticks w)) name status) = None ->
  Io.log_pest_upload os env name status w
    = (Ok tt, world_logged env w name status).
Proof.
  intros H. rewrite <- (log_pest_upload_run env name status w).
  unfold Io.log_pest_upload, Io.log_event, log_pest_upload, log_event,
    bind, datetime_now.
  apply append_line_run.
  unfold pest_log_line, status_sep in H. cbn [ticks].
  by rewrite <- !app_assoc in *.
Qed.

(** ** Exceptions reaching the endpoint level *)

(** C8, as amended.  An exception that the [try] block of a handler
    raises and that derives from [Exception] is answered with status 500
    and the body fixed for the endpoint, in which nothing of the exception
    appears, provided the [except] block can report it: its [print]
    succeeds and, for [/chat] and [/detect_pest], so does the write of its
    log line.  An exception that derives from [BaseException] only is not
    caught: it leaves the handler as it was raised. *)
Theorem reported_exceptions_answered_with_fixed_500 os env request w e w1 :
  (Io.chat_body os env request w = (Raise e, w1) ->
   Io.derives_from_exception e = true ->
   print_outcome os (u "Chat error:") e = None ->
   append_outcome os chat_log
     (chat_log_line (clock env (ticks w1)) (exc_msg e)
                    (u "Chat generation failed")) = None ->
   fst (Io.chat os env request w)
     = Ok (mkResponse (reply (u "Error processing your message.")) 500))
  /\ (Io.transcribe_body os env request w = (Raise e, w1) ->
      Io.derives_from_exception e = true ->
      print_outcome os (u "Transcription error:") e = None ->
      fst (Io.transcribe_audio os env request w)
        = Ok (mkResponse (error_body (u "Transcription failed")) 500))
  /\ (Io.detect_pest_body os env request w = (Raise e, w1) ->
      Io.derives_from_exception e = true ->
      print_outcome os (u "Pest detection error:") e = None ->
      append_outcome os pest_log
        (pest_log_line (clock env (ticks w1)) (logged_name request)
                       (u "Error: " ++ exc_msg e)) = None ->
      fst (Io.detect_pest os env request w)
        = Ok (mkResponse (error_body (u "Pest detection failed")) 500))
  /\ (Io.derives_from_exception e = false ->
      (Io.chat_body os env request w = (Raise e, w1) ->
       Io.chat os env request w = (Raise e, w1))
      /\ (Io.transcribe_body os env request w = (Raise e, w1) ->
          Io.transcribe_audio os env request w = (Raise e, w1))
      /\ (Io.detect_pest_body os env request w = (Raise e, w1) ->
          Io.detect_pest os env request w = (Raise e, w1))).
Proof.
  split; [|split; [|split]].
  - intros Hb Hd Hp Hl. unfold Io.chat, try_except. rewrite Hb, Hd.
    unfold bind. rewrite (print_error_run _ _ _ _ Hp).
    by rewrite log_chat_message_io_run.
  - intros Hb Hd Hp. unfold Io.transcribe_audio, try_except. rewrite Hb, Hd.
    unfold bind. by rewrite (print_error_run _ _ _ _ Hp).
  - intros Hb Hd Hp Hl. unfold Io.detect_pest, try_except. rewrite Hb, Hd.
    unfold bind. rewrite (print_error_run _ _ _ _ Hp).
    fold (logged_name request). by rewrite log_pest_upload_io_run.
  - intros Hd. repeat split; intros Hb.
    + unfold Io.chat, try_except. by rewrite Hb, Hd.
    + unfold Io.transcribe_audio, try_except. by rewrite Hb, Hd.
    + unfold Io.detect_pest, try_except. by rewrite Hb, Hd.
Qed.

(** Every provider is unreachable: each endpoint answers with its fixed
    500 body. *)
Lemma offline_providers_answered_with_fixed_500 :
  fst (Io.chat SampleOs.posix Sample.offline_env SampleAudio.hello
               Sample.world0)
    = Ok (mkResponse (reply (u "Error processing your message.")) 500)
  /\ fst (Io.transcribe_audio SampleOs.posix Sample.offline_env
                              (Sample.upload SampleAudio.voice) Sample.world0)
     = Ok (mkResponse (error_body (u "Transcription failed")) 500)
  /\ fst (Io.detect_pest SampleOs.posix Sample.offline_env
                         (Sample.upload Sample.leaf) Sample.world0)
     = Ok (mkResponse (error_body (u "Pest detection failed")) 500).
Proof.
  split; [|split].
  - apply (proj1 (reported_exceptions_answered_with_fixed_500
                    SampleOs.posix Sample.offline_env SampleAudio.hello
                    Sample.world0 Sample.connection_error
                    (snd (Io.chat_body SampleOs.posix Sample.offline_env
                                       SampleAudio.hello Sample.world0))));
      vm_compute; reflexivity.
  - apply (proj1 (proj2 (reported_exceptions_answered_with_fixed_500
                    SampleOs.posix Sample.offline_env
                    (Sample.upload SampleAudio.voice)
                    Sample.world0 Sample.connection_error
                    (snd (Io.transcribe_body SampleOs.posix Sample.offline_env
                            (Sample.upload SampleAudio.voice)
                            Sample.world0)))));
      vm_compute; reflexivity.
  - apply (proj1 (proj2 (proj2 (reported_exceptions_answered_with_fixed_500
                    SampleOs.posix Sample.offline_env
                    (Sample.upload Sample.leaf)
                    Sample.world0 Sample.connection_error
                    (snd (Io.detect_pest_body SampleOs.posix Sample.offline_env
                            (Sample.upload Sample.leaf) Sample.world0))))));
      vm_compute; reflexivity.
Defined.

(** A provider error whose text holds a lone surrogate cannot be printed
    on a standard output encoded in UTF-8: the [print] of the [except]
    block raises and the request gets no answer from the handler.  Nor
    does a request during which the provider call is interrupted. *)
Lemma chat_exceptions_that_leave_the_handler :
  fst (Io.chat SampleOs.posix SampleOs.garbled_env SampleAudio.hello
               Sample.world0)
    = Raise (mkExc Io.UnicodeEncodeError
               (u "'utf-8' codec can't encode character '\ud83d' in position 14: surrogates not allowed"))
  /\ fst (Io.chat SampleOs.posix SampleOs.interrupted_env SampleAudio.hello
                  Sample.world0)
     = Raise SampleOs.keyboard_interrupt.
Proof. split; vm_compute; reflexivity. Qed.

(** ** [/detect_pest]: an upload that is recognised and then found broken *)

(** C5, at a failing input.  The decoder opens the upload and [verify]
    then raises [SyntaxError], as PIL does on a PNG file with a damaged
    chunk.  The upload fails image decoding, yet the answer is not the 400
    of line 125: line 124 catches [UnidentifiedImageError] only, so the
    exception reaches line 193 and the request is answered 500, with an
    error line in [pest_uploads.txt].  Nothing is archived and the vision
    model is not called. *)
Theorem detect_pest_broken_image_answered_500_not_400 :
  let run := Io.detect_pest SampleOs.posix SampleChat.broken_env
               (Sample.upload Sample.leaf) Sample.world0 in
  image_check SampleChat.broken_env (stream Sample.leaf)
    = Raise SampleChat.broken_png
  /\ fst run = Ok (mkResponse (error_body (u "Pest detection failed")) 500)
  /\ fst run
     <> Ok (mkResponse (error_body (u "Invalid or corrupted image file")) 400)
  /\ files (snd run) = files Sample.world0
  /\ new_events Sample.world0 (snd run)
     = [EvPrint (u "Pest detection error: broken PNG file" ++ [10]);
        EvLogAppend (u "pest_uploads.txt")
          (u "[2025-01-15 10:30:00] Pest: leaf photo.png | Status: Error: broken PNG file"
             ++ [10])].
Proof.
  cbv zeta. repeat split; try (vm_compute; reflexivity).
  vm_compute. discriminate.
Qed.

(** ** [/detect_pest]: archival *)

Lemma save_outcome_none os path data :
  save_outcome os path data = None ->
  Io.has_nul path = false
  /\ os (Io.OpOpen path Io.ModeWrite) = None
  /\ os (Io.OpWrite path data) = None.
Proof.
  unfold save_outcome, open_outcome.
  destruct (Io.has_nul path); [discriminate|].
  by destruct (os (Io.OpOpen path Io.ModeWrite)).
Qed.

Lemma save_outcome_some os path data e :
  save_outcome os path data = Some e ->
  Io.has_nul path = true
  \/ (Io.has_nul path = false /\ os (Io.OpOpen path Io.ModeWrite) = Some e)
  \/ (Io.has_nul path = false /\ os (Io.OpOpen path Io.ModeWrite) = None
      /\ os (Io.OpWrite path data) = Some e).
Proof.
  unfold save_outcome, open_outcome.
  destruct (Io.has_nul path); [by left|].
  destruct (os (Io.OpOpen path Io.ModeWrite)) as [e'|].
  - intros [= ->]. right. by left.
  - intros H. right. by right.
Qed.

Lemma open_outcome_none os path mode :
  open_outcome os path mode = None ->
  Io.has_nul path = false /\ os (Io.OpOpen path mode) = None.
Proof. unfold open_outcome. by destruct (Io.has_nul path). Qed.

(** When the archive is written: the write comes first and its content
    stays. *)
Lemma detect_pest_archive_written os env request file w :
  decodable_upload env request file ->
  save_outcome os (save_path env w file) (stream file) = None ->
  wp (Io.detect_pest os env request)
     (fun _ w' =>
        (exists rest,
            new_events w w'
              = EvFileWrite (save_path env w file) (stream file) :: rest)
        /\ (img_path env w <> save_path env w file ->
            files w' !! save_path env w file = Some (stream file))) w.
Proof.
  intros (Hfile & Hname%is_empty_false & Hopen & Hverify)
         (Hnul & Hos & Hwrite)%save_outcome_none.
  unfold save_path, archive_name, img_path in *.
  wp_run.
  all: split;
    [norm_trace; eexists; reflexivity
    |intros Hne; rewrite ?lookup_delete_ne, ?lookup_insert_ne by congruence;
     apply lookup_insert_eq].
Qed.

(** When the temporary copy can be made and read as well, the model is
    called, after the archive write and the two writes of the copy. *)
Lemma detect_pest_model_called_after_archive os env request file w :
  decodable_upload env request file ->
  save_outcome os (save_path env w file) (stream file) = None ->
  os (Io.OpTempFile (u ".jpg")) = None ->
  os (Io.OpWrite (img_path env w) (stream file)) = None ->
  open_outcome os (img_path env w) Io.ModeRead = None ->
  wp (Io.detect_pest os env request)
     (fun _ w' =>
        exists rest,
          new_events w w'
            = [EvFileWrite (save_path env w file) (stream file);
               EvFileWrite (img_path env w) [];
               EvFileWrite (img_path env w) (stream file);
               EvGenerateContent (stream file)] ++ rest) w.
Proof.
  intros (Hfile & Hname%is_empty_false & Hopen & Hverify)
         (Hnul & Hos & Hwrite)%save_outcome_none
         Htemp Hcopy (Hnul' & Hread)%open_outcome_none.
  unfold save_path, archive_name, img_path in *.
  wp_run.
  all: norm_trace; eexists; reflexivity.
Qed.

(** When the archive cannot be written: nothing of the upload is
    archived, the model is not called, and the only answer is 500. *)
Lemma detect_pest_archive_refused os env request file w e :
  decodable_upload env request file ->
  save_outcome os (save_path env w file) (stream file) = Some e ->
  wp (Io.detect_pest os env request)
     (fun r w' =>
        forallb is_report (new_events w w') = true
        /\ (files w' !! save_path env w file = files w !! save_path env w file
            \/ files w' !! save_path env w file = Some [])
        /\ forall response,
             r = Ok response ->
             response = mkResponse (error_body (u "Pest detection failed"))
                                   500) w.
Proof.
  intros (Hfile & Hname%is_empty_false & Hopen & Hverify)
         [Hnul|[(Hnul & Hos)|(Hnul & Hos & Hwrite)]]%save_outcome_some.
  all: unfold save_path, archive_name, img_path in *.
  all: wp_run.
  all: split; [norm_trace; reflexivity|].
  all: split; [first [left; reflexivity|right; apply lookup_insert_eq]|].
  all: intros response Hr;
    first [discriminate Hr|injection Hr as <-; reflexivity].
Qed.

(** C9, as amended.  With a decodable image, the write of the uploaded
    bytes to [uploaded_images/<compact timestamp>_<file name with each
    space turned into an underscore>] is the first thing the handler
    attempts.  When the file can be opened and written, that write is the
    first effect of the request, so it precedes any call to the vision
    model, and the archive holds the bytes unmodified when the request
    completes; when the temporary copy can be made and read as well, the
    model is called after it.  When the file cannot be opened or written,
    nothing of the upload is archived, the model is not called and the
    request is answered 500 if it is answered at all. *)
Theorem detect_pest_archives_first_when_writable os env request file w :
  decodable_upload env request file ->
  let path :=
    u "uploaded_images/" ++ strftime_compact (clock env (ticks w)) ++ u "_"
      ++ replace_char 32 95 (filename file) in
  let run := Io.detect_pest os env request w in
  (save_outcome os path (stream file) = None ->
   (exists rest,
       new_events w (snd run) = EvFileWrite path (stream file) :: rest)
   /\ (img_path env w <> path ->
       files (snd run) !! path = Some (stream file))
   /\ (os (Io.OpTempFile (u ".jpg")) = None ->
       os (Io.OpWrite (img_path env w) (stream file)) = None ->
       open_outcome os (img_path env w) Io.ModeRead = None ->
       exists rest,
         new_events w (snd run)
           = [EvFileWrite path (stream file);
              EvFileWrite (img_path env w) [];
              EvFileWrite (img_path env w) (stream file);
              EvGenerateContent (stream file)] ++ rest))
  /\ (forall e,
         save_outcome os path (stream file) = Some e ->
         forallb is_report (new_events w (snd run)) = true
         /\ (files (snd run) !! path = files w !! path
             \/ files (snd run) !! path = Some [])
         /\ forall response,
              fst run = Ok response ->
              response = mkResponse (error_body (u "Pest detection failed"))
                                    500).
Proof.
  intros Hdec. cbv zeta.
  change (strftime_compact (clock env (ticks w)) ++ u "_"
            ++ replace_char 32 95 (filename file))
    with (archive_name env w file).
  rewrite <- save_path_in_uploads.
  split.
  - intros Hsave.
    destruct (detect_pest_archive_written os env request file w Hdec Hsave)
      as [Hfirst Hkept].
    split; [exact Hfirst|]. split; [exact Hkept|].
    intros Htemp Hcopy Hread.
    exact (detect_pest_model_called_after_archive
             os env request file w Hdec Hsave Htemp Hcopy Hread).
  - intros e Hsave.
    exact (detect_pest_archive_refused os env request file w e Hdec Hsave).
Qed.

Lemma detect_pest_archives_leaf_photo :
  let run := Io.detect_pest SampleOs.posix (Sample.vision_env [u "{}"])
               (Sample.upload Sample.leaf) Sample.world0 in
  let path := u "uploaded_images/20250115_103000_leaf_photo.png" in
  (exists rest,
      new_events Sample.world0 (snd run)
        = EvFileWrite path (stream Sample.leaf) :: rest)
  /\ files (snd run) !! path = Some (stream Sample.leaf)
  /\ exists rest,
       new_events Sample.world0 (snd run)
         = [EvFileWrite path (stream Sample.leaf);
            EvFileWrite (u "/tmp/tmp0.jpg") [];
            EvFileWrite (u "/tmp/tmp0.jpg") (stream Sample.leaf);
            EvGenerateContent (stream Sample.leaf)] ++ rest.
Proof.
  cbv zeta.
  assert (decodable_upload (Sample.vision_env [u "{}"])
            (Sample.upload Sample.leaf) Sample.leaf) as Hdec.
  { repeat split; try (vm_compute; reflexivity). vm_compute. discriminate. }
  destruct (detect_pest_archives_first_when_writable
              SampleOs.posix (Sample.vision_env [u "{}"])
              (Sample.upload Sample.leaf) Sample.leaf Sample.world0 Hdec)
    as [Hwritten _].
  destruct Hwritten as (Hfirst & Hkept & Hcalled);
    [vm_compute; reflexivity|].
  split; [exact Hfirst|]. split.
  - apply Hkept. vm_compute. discriminate.
  - apply Hcalled; vm_compute; reflexivity.
Defined.

(** An upload named [sub/leaf.png] decodes, but its archive path names a
    directory that is not there: [open] raises, nothing is archived, the
    vision model is not called and the answer is 500. *)
Lemma detect_pest_nested_name_not_archived :
  let env := Sample.vision_env [u "{}"] in
  let request := Sample.upload SampleOs.nested in
  let run := Io.detect_pest SampleOs.posix env request Sample.world0 in
  let refusal :=
    u "[Errno 2] No such file or directory: 'uploaded_images/20250115_103000_sub/leaf.png'" in
  decodable_upload env request SampleOs.nested
  /\ fst run = Ok (mkResponse (error_body (u "Pest detection failed")) 500)
  /\ files (snd run) = files Sample.world0
  /\ new_events Sample.world0 (snd run)
     = [EvPrint (u "Pest detection error: " ++ refusal ++ [10]);
        EvLogAppend (u "pest_uploads.txt")
          (u "[2025-01-15 10:30:01] Pest: sub/leaf.png | Status: Error: "
             ++ refusal ++ [10])].
Proof.
  cbv zeta. split.
  { repeat split; try (vm_compute; reflexivity). vm_compute. discriminate. }
  repeat split; vm_compute; reflexivity.
Qed.

(** ** [/chat]: the reply, and the log line it depends on *)

Lemma chat_body_io_called os env request w message :
  chat_input env request = Ok message ->
  message <> [] ->
  Io.chat_body os env request w
    = match chat_completions_create env message with
      | Raise e => (Raise e, world_chat_called w message)
      | Ok response =>
          match choices response with
          | [] => (Raise index_error, world_chat_called w message)
          | choice :: _ =>
              match Io.log_chat_message os env message (u "Response OK")
                      (world_chat_called w message) with
              | (Ok _, w') => (Ok (jsonify (reply_of choice)), w')
              | (Raise e, w') => (Raise e, w')
              end
          end
      end.
Proof.
  intros Hin Hne%is_empty_false. unfold chat_input in Hin.
  unfold Io.chat_body, bind, lift.
  destruct (get_json request) as [data|]; [|discriminate].
  destruct (method_get data (u "message")) as [m|]; [|discriminate].
  rewrite Hin, Hne. unfold call_chat, bind, emit, lift, ret.
  fold (world_chat_called w message).
  destruct (chat_completions_create env message) as [response|e];
    [|reflexivity].
  by destruct (choices response).
Qed.

(** The write of a log line either happens or raises with the trace and
    the binary files as they were. *)
Lemma append_line_cases os path line w :
  match append_outcome os path line with
  | None => Io.append_line os path line w = append_text path line w
  | Some e =>
      exists w',
        Io.append_line os path line w = (Raise e, w')
        /\ events w' = events w /\ files w' = files w
  end.
Proof.
  destruct (append_outcome os path line) as [e|] eqn:Hout;
    [|by apply append_line_run].
  unfold append_outcome, open_outcome in Hout.
  unfold Io.append_line, Io.open_file, bind, Io.attempt.
  destruct (Io.has_nul path).
  { injection Hout as <-. by eexists. }
  destruct (os (Io.OpOpen path Io.ModeAppend)) as [e1|].
  { injection Hout as ->. by eexists. }
  cbn. destruct (Io.encode_error line) as [e2|].
  { injection Hout as ->. by eexists. }
  cbn. rewrite Hout. by eexists.
Qed.

Lemma chat_line_eq t message status :
  u "[" ++ strftime_log t ++ u "] " ++ u "Chat" ++ u ": "
    ++ (message ++ status_sep ++ status) ++ [10]
  = chat_log_line t message status.
Proof.
  unfold chat_log_line, status_sep. by rewrite <- !app_assoc.
Qed.

Lemma log_chat_message_io_cases os env message status w :
  match append_outcome os chat_log
          (chat_log_line (clock env (ticks w)) message status) with
  | None =>
      Io.log_chat_message os env message status w
        = (Ok tt, world_chat_logged env w message status)
  | Some e =>
      exists w',
        Io.log_chat_message os env message status w = (Raise e, w')
        /\ events w' = events w /\ files w' = files w
  end.
Proof.
  destruct (append_outcome _ _ _) as [e|] eqn:Hout;
    [|by apply log_chat_message_io_run].
  unfold Io.log_chat_message, Io.log_event, bind, datetime_now.
  rewrite chat_line_eq. fold chat_log.
  pose proof (append_line_cases os chat_log
                (chat_log_line (clock env (ticks w)) message status)
                (mkWorld (files w) (logs w) (S (ticks w)) (temps w)
                         (events w))) as H.
  by rewrite Hout in H.
Qed.

(** X1. When the body of a chat request gives a non-empty trimmed message
    and the completion provider returns at least one choice, what [/chat]
    answers depends on the line it then writes to [chat_logs.txt].  When
    that line can be written (the file opens, the line has a UTF-8
    encoding, the write is accepted), the answer is 200 with the content
    of the first choice as its reply; the provider was called once, with
    the trimmed message, one line with that message and status
    [Response OK] was appended, and the binary files are as they were.
    When writing the line raises, the provider has answered all the same
    but the reply is lost: the only answer the request can get is the 500
    of line 81. *)
Theorem chat_reply_relayed_when_logged
    os env request w message response choice others :
  chat_input env request = Ok message ->
  message <> [] ->
  chat_completions_create env message = Ok response ->
  choices response = choice :: others ->
  let line := chat_log_line (clock env (ticks w)) message (u "Response OK") in
  let run := Io.chat os env request w in
  (append_outcome os chat_log line = None ->
   fst run = Ok (mkResponse (reply_of choice) 200)
   /\ new_events w (snd run)
      = [EvChatCompletion message; EvLogAppend chat_log line]
   /\ logs (snd run) !! chat_log
      = Some (default [] (logs w !! chat_log) ++ line)
   /\ files (snd run) = files w)
  /\ (forall e,
         append_outcome os chat_log line = Some e ->
         (exists rest,
             new_events w (snd run) = EvChatCompletion message :: rest)
         /\ forall answer,
              fst run = Ok answer ->
              answer = mkResponse (reply (u "Error processing your message."))
                                  500).
Proof.
  intros Hin Hne Hc Hch. cbv zeta.
  pose proof (log_chat_message_io_cases os env message (u "Response OK")
                (world_chat_called w message)) as Hlog.
  cbn [ticks world_chat_called] in Hlog.
  split.
  - intros Hout. rewrite Hout in Hlog.
    unfold Io.chat, try_except.
    rewrite (chat_body_io_called _ _ _ _ _ Hin Hne), Hc, Hch, Hlog.
    cbn. split; [reflexivity|]. split; [|split; [|reflexivity]].
    + apply new_events_app. cbn. by rewrite <- app_assoc.
    + by rewrite lookup_insert_eq.
  - intros e Hout. rewrite Hout in Hlog.
    destruct Hlog as (w' & Hlog & Hev & Hfiles).
    unfold Io.chat, try_except.
    rewrite (chat_body_io_called _ _ _ _ _ Hin Hne), Hc, Hch, Hlog.
    cbn [world_chat_called events] in Hev.
    assert (wp (print_error_then_log os env e)
              (fun r w2 =>
                 (exists more, events w2 = events w' ++ more)
                 /\ forall answer,
                      r = Ok answer ->
                      answer = mkResponse
                                 (reply (u "Error processing your message."))
                                 500) w') as Hhandler.
    { unfold print_error_then_log. wp_run.
      all: split;
        [first [by exists []; rewrite app_nil_r
               |eexists; reflexivity
               |rewrite <- (@app_assoc Event); eexists; reflexivity]
        |intros answer Hr;
         first [discriminate Hr|injection Hr as <-; reflexivity]]. }
    unfold print_error_then_log, wp in Hhandler.
    destruct (Io.derives_from_exception e).
    + destruct Hhandler as [[more Hmore] Hanswer]. split; [|exact Hanswer].
      exists more. apply new_events_app.
      by rewrite Hmore, Hev, <- app_assoc.
    + cbn. split; [|intros answer [=]].
      exists []. apply new_events_app. by rewrite Hev.
Qed.

Lemma chat_hello_answered :
  let env := SampleChat.env (u "Use neem oil.") in
  let run := Io.chat SampleOs.posix env SampleAudio.hello Sample.world0 in
  let line := u "[2025-01-15 10:30:00] Chat: hello | Status: Response OK"
                ++ [10] in
  fst run = Ok (mkResponse (reply_of (mkChoice (Some (u "Use neem oil.")))) 200)
  /\ new_events Sample.world0 (snd run)
     = [EvChatCompletion (u "hello"); EvLogAppend chat_log line]
  /\ logs (snd run) !! chat_log = Some line
  /\ files (snd run) = files Sample.world0.
Proof.
  cbv zeta.
  apply (proj1 (chat_reply_relayed_when_logged
                  SampleOs.posix (SampleChat.env (u "Use neem oil."))
                  SampleAudio.hello Sample.world0 (u "hello")
                  (mkCompletion [mkChoice (Some (u "Use neem oil."));
                                 mkChoice (Some (u "unused"))])
                  (mkChoice (Some (u "Use neem oil.")))
                  [mkChoice (Some (u "unused"))]
                  ltac:(vm_compute; reflexivity) ltac:(discriminate)
                  eq_refl eq_refl)).
  vm_compute. reflexivity.
Defined.

(** The message is one lone surrogate and the provider answers: the line
    for [chat_logs.txt] has no UTF-8 encoding, its write raises, and the
    request is answered 500. *)
Lemma chat_lone_surrogate_answered_500 :
  let run := Io.chat SampleOs.posix (SampleChat.env (u "Use neem oil."))
               SampleOs.lone_surrogate Sample.world0 in
  let refusal :=
    u "'utf-8' codec can't encode character '\ud83d' in position 28: surrogates not allowed" in
  fst run = Ok (mkResponse (reply (u "Error processing your message.")) 500)
  /\ new_events Sample.world0 (snd run)
     = [EvChatCompletion [55357];
        EvPrint (u "Chat error: " ++ refusal ++ [10]);
        EvLogAppend chat_log
          (u "[2025-01-15 10:30:01] Chat: " ++ refusal
             ++ u " | Status: Chat generation failed" ++ [10])].
Proof. cbv zeta. split; vm_compute; reflexivity. Qed.

(** ** [/detect_pest]: the records of a request *)

Lemma pest_line_eq t name status :
  EvLogAppend (u "pest_uploads.txt")
    (u "[" ++ strftime_log t ++ u "] " ++ u "Pest" ++ u ": "
       ++ (name ++ status_sep ++ status) ++ [10])
  = pest_record t name status.
Proof.
  unfold pest_record, pest_log_line, status_sep. by rewrite <- !app_assoc.
Qed.

(** X12. Whatever the operating system and the interpreter do, the
    records that a request to [/detect_pest] appends to the logs, all of
    them to [pest_uploads.txt] and under the file name of the upload, tell
    how the request ended.  A request answered 400 appends none.  A
    request answered 200 appends exactly one, with status [Detection OK]
    or [JSON parse fallback].  A request answered 500 appends, last, one
    with status [Error: ] followed by the text of an exception; the only
    record that can precede it is that of a success logged before the
    response could not be built.  A request that an exception leaves
    unanswered appends no error record. *)
Theorem detect_pest_records_tell_the_answer os env request w :
  let run := Io.detect_pest os env request w in
  let appended := log_appends (new_events w (snd run)) in
  match fst run with
  | Ok response =>
      (status response = 400 /\ appended = [])
      \/ (status response = 200
          /\ exists ev, appended = [ev] /\ success_record request ev)
      \/ (status response = 500
          /\ exists ev,
               error_record request ev
               /\ (appended = [ev]
                   \/ exists ev0,
                        success_record request ev0 /\ appended = [ev0; ev]))
  | Raise _ =>
      appended = []
      \/ exists ev, appended = [ev] /\ success_record request ev
  end.
Proof.
  cbv zeta.
  change (wp (Io.detect_pest os env request)
            (fun r w' =>
               match r with
               | Ok response =>
                   (status response = 400
                    /\ log_appends (new_events w w') = [])
                   \/ (status response = 200
                       /\ exists ev,
                            log_appends (new_events w w') = [ev]
                            /\ success_record request ev)
                   \/ (status response = 500
                       /\ exists ev,
                            error_record request ev
                            /\ (log_appends (new_events w w') = [ev]
                                \/ exists ev0,
                                     success_record request ev0
                                     /\ log_appends (new_events w w')
                                        = [ev0; ev]))
               | Raise _ =>
                   log_appends (new_events w w') = []
                   \/ exists ev,
                        log_appends (new_events w w') = [ev]
                        /\ success_record request ev
               end) w).
  unfold success_record, error_record, logged_name.
  wp_run.
  all: norm_trace; cbn [log_appends is_log_append]; rewrite ?pest_line_eq.
  all: first
    [ left; reflexivity
    | left; split; reflexivity
    | right; eexists; split; [reflexivity|];
      eexists _, _; split; [reflexivity|tauto]
    | right; left; split; [reflexivity|];
      eexists; split; [reflexivity|];
      eexists _, _; split; [reflexivity|tauto]
    | right; right; split; [reflexivity|];
      eexists; split; [eexists _, _; reflexivity|];
      left; reflexivity
    | right; right; split; [reflexivity|];
      eexists; split; [eexists _, _; reflexivity|];
      right; eexists; split; [|reflexivity];
      eexists _, _; split; [reflexivity|tauto] ].
Qed.

(** ** All three handlers: what leaves them *)







